(** * lokutor-orchestrator: conversation window, pipeline controller and RMS
      voice-activity detector

    A shallow embedding of [types.go] (messages, sessions), [orchestrator.go]
    (the STT -> LLM -> TTS pipeline) and [pkg/orchestrator/vad.go] (the RMS
    voice-activity detector), followed by the properties of the specification
    that concern them.

    Conventions.
    - Go's [int] and [int64] are 64-bit two's complement integers, modelled
      in [Z] with the wrap-around written out ([wrap64]).
    - Go's [float64] is Rocq's primitive binary64 [float]; every operation is
      rounded on its own (no fused multiply-add).
    - A run-time panic is the [None] of [option].
    - A [[]T] is a [list T]; the nil slice is the empty list. *)

From Stdlib Require Import ZArith Lia Floats.
From Stdlib Require Uint63.
From Stdlib Require Strings.Byte.
From Stdlib Require Import Ascii String.
From stdpp Require Import base option list strings gmap.

#[local] Set Warnings "-inexact-float".
#[local] Open Scope Z_scope.

(** ** Go primitives *)

Module Go.

(** Two's complement wrap-around of a [w]-bit signed integer. *)
Definition wrap (w : Z) (z : Z) : Z :=
  (z + 2 ^ (w - 1)) `mod` 2 ^ w - 2 ^ (w - 1).

Definition wrap64 : Z → Z := wrap 64.
Definition wrap16 : Z → Z := wrap 16.

Definition minInt64 : Z := - 2 ^ 63.
Definition maxInt64 : Z := 2 ^ 63 - 1.

(** [len(s)] as a Go [int]. *)
Definition len {A} (s : list A) : Z := Z.of_nat (length s).

(** The slice expression [s[lo:]]: it panics unless [0 <= lo <= len(s)]. *)
Definition slice_from {A} (s : list A) (lo : Z) : option (list A) :=
  if bool_decide (0 ≤ lo ≤ len s) then Some (drop (Z.to_nat lo) s) else None.

(** The numeric value of a [byte] ([uint8]). *)
Definition byte_val (b : Byte.byte) : Z := Z.of_N (Byte.to_N b).

(** [float64(z)] for an integer [z] with [|z| < 2^63]. *)
Definition float64_of_int (z : Z) : float :=
  if z <? 0 then PrimFloat.opp (PrimFloat.of_uint63 (Uint63.of_Z (- z)))
  else PrimFloat.of_uint63 (Uint63.of_Z z).

(** The [error] interface: a plain error, or one made by
    [fmt.Errorf("...%w", err)], which carries its message and its cause. *)
Inductive error : Type :=
| errorString (msg : string)
| wrapError (msg : string) (cause : error).

Definition Error (e : error) : string :=
  match e with
  | errorString msg => msg
  | wrapError msg _ => msg
  end.

Definition Unwrap (e : error) : option error :=
  match e with
  | errorString _ => None
  | wrapError _ cause => Some cause
  end.

(** [fmt.Errorf(msg)] with no verb in [msg]. *)
Definition Errorf (msg : string) : error := errorString msg.

(** [fmt.Errorf(prefix + "%w", err)]. *)
Definition Errorf_w (prefix : string) (err : error) : error :=
  wrapError (prefix +:+ Error err) err.

End Go.

(** ** types.go: messages and conversation sessions *)

Definition Voice : Type := string.
Definition Language : Type := string.

Definition VoiceF1 : Voice := "F1".
Definition LanguageEn : Language := "en".

Record Message : Type := mkMessage {
  Role : string;
  Content : string
}.

#[global] Instance Message_eq_dec : EqDecision Message.
Proof. solve_decision. Defined.

Record ConversationSession : Type := mkSession {
  ID : string;
  Context : list Message;
  LastUser : string;
  LastAssistant : string;
  MaxMessages : Z;
  CurrentVoice : Voice;
  CurrentLanguage : Language
}.

Module Session.

Definition set_Context (c : list Message) (s : ConversationSession) :=
  mkSession (ID s) c (LastUser s) (LastAssistant s) (MaxMessages s)
            (CurrentVoice s) (CurrentLanguage s).

Definition set_LastUser (u : string) (s : ConversationSession) :=
  mkSession (ID s) (Context s) u (LastAssistant s) (MaxMessages s)
            (CurrentVoice s) (CurrentLanguage s).

Definition set_LastAssistant (a : string) (s : ConversationSession) :=
  mkSession (ID s) (Context s) (LastUser s) a (MaxMessages s)
            (CurrentVoice s) (CurrentLanguage s).

Definition set_MaxMessages (m : Z) (s : ConversationSession) :=
  mkSession (ID s) (Context s) (LastUser s) (LastAssistant s) m
            (CurrentVoice s) (CurrentLanguage s).

Definition set_CurrentVoice (v : Voice) (s : ConversationSession) :=
  mkSession (ID s) (Context s) (LastUser s) (LastAssistant s) (MaxMessages s)
            v (CurrentLanguage s).

Definition set_CurrentLanguage (l : Language) (s : ConversationSession) :=
  mkSession (ID s) (Context s) (LastUser s) (LastAssistant s) (MaxMessages s)
            (CurrentVoice s) l.

(** [NewConversationSession(userID)]. *)
Definition NewConversationSession (userID : string) : ConversationSession :=
  mkSession userID [] "" "" 20 VoiceF1 LanguageEn.

(** The window trim of [AddMessage]: the context is resliced from
    [len(s.Context) - s.MaxMessages] when it is longer than [MaxMessages]. *)
Definition trim (maxMessages : Z) (ctx : list Message) : option (list Message) :=
  if bool_decide (Go.len ctx > maxMessages)
  then Go.slice_from ctx (Go.wrap64 (Go.len ctx - maxMessages))
  else Some ctx.

(** [ConversationSession.AddMessage(role, content)]; [None] when the
    slice expression panics. *)
Definition AddMessage (role content : string) (s : ConversationSession)
  : option ConversationSession :=
  ctx ← trim (MaxMessages s) (Context s ++ [mkMessage role content]);
  let s := set_Context ctx s in
  Some (if String.eqb role "user" then set_LastUser content s
        else if String.eqb role "assistant" then set_LastAssistant content s
        else s).

(** [ConversationSession.ClearContext()]. *)
Definition ClearContext (s : ConversationSession) : ConversationSession :=
  set_LastAssistant "" (set_LastUser "" (set_Context [] s)).

(** A sequence of [AddMessage] calls, stopping at the first panic. *)
Fixpoint AddMessages (calls : list (string * string)) (s : ConversationSession)
  : option ConversationSession :=
  match calls with
  | [] => Some s
  | (role, content) :: rest => s' ← AddMessage role content s; AddMessages rest s'
  end.

(** The messages a sequence of calls appends, in call order. *)
Definition appended (calls : list (string * string)) : list Message :=
  map (λ rc, mkMessage rc.1 rc.2) calls.

(** The last [n] elements of a list, in their original order. *)
Definition lastn {A} (n : nat) (l : list A) : list A :=
  drop (length l - n)%nat l.

(** The content of the last call of a sequence made with [role], or
    [before] when there is none. *)
Fixpoint lastContent (role : string) (calls : list (string * string))
         (before : string) : string :=
  match calls with
  | [] => before
  | (r, content) :: rest =>
      lastContent role rest (if String.eqb r role then content else before)
  end.

End Session.

(** ** orchestrator.go: the pipeline controller *)

Record Config : Type := mkConfig {
  SampleRate : Z;
  Channels : Z;
  BytesPerSamp : Z;
  MaxContextMessages : Z;
  VoiceStyle : Voice;
  ConfigLanguage : Language;   (* the field [Language] of the source *)
  STTTimeout : Z;
  LLMTimeout : Z;
  TTSTimeout : Z
}.

(** [DefaultConfig()]. *)
Definition DefaultConfig : Config :=
  mkConfig 16000 1 2 20 VoiceF1 LanguageEn 30 60 30.

Module Orchestrator.
Section Pipeline.

(** The world outside the controller: whatever the providers and the
    caller's chunk sink read and write (network, clocks, the cancellable
    [context.Context] handed through every call, the caller's buffers). *)
Context {Env : Type}.

(** [strings.TrimSpace] belongs to Go's standard library and is not part of
    the repository: the controller is parametric in it. *)
Variable TrimSpace : string → string.

(** The caller's chunk sink [func([]byte) error]. *)
Definition Sink : Type := list Byte.byte → Env → option Go.error * Env.

Record STTProvider : Type := mkSTT {
  stt_Transcribe : list Byte.byte → Env → (string * option Go.error) * Env;
  stt_Name : string
}.

Record LLMProvider : Type := mkLLM {
  llm_Complete : list Message → Env → (string * option Go.error) * Env;
  llm_Name : string
}.

Record TTSProvider : Type := mkTTS {
  tts_Synthesize : string → Voice → Env → (list Byte.byte * option Go.error) * Env;
  tts_StreamSynthesize : string → Voice → Sink → Env → option Go.error * Env;
  tts_Name : string
}.

Record Orchestrator : Type := mkOrchestrator {
  stt : STTProvider;
  llm : LLMProvider;
  tts : TTSProvider;
  config : Config
}.

(** [New(stt, llm, tts, config)]. *)
Definition New (stt : STTProvider) (llm : LLMProvider) (tts : TTSProvider)
           (config : Config) : Orchestrator :=
  mkOrchestrator stt llm tts config.

(** What the controller does to its collaborators, in order. *)
Inductive Event : Type :=
| EvTranscribe (audio : list Byte.byte)
| EvComplete (messages : list Message)
| EvSynthesize (text : string) (voice : Voice)
| EvStreamSynthesize (text : string) (voice : Voice)
| EvLog (line : string).

(** The session the [*ConversationSession] argument points to, the outside
    world, and the calls made so far. *)
Record World : Type := mkWorld {
  w_session : ConversationSession;
  w_env : Env;
  w_trace : list Event
}.

(** A method of the controller: a state transformer that may panic. *)
Definition M (A : Type) : Type := World → option (A * World).

Definition ret {A} (a : A) : M A := λ w, Some (a, w).

Definition bind {A B} (m : M A) (k : A → M B) : M B :=
  λ w, match m w with
       | Some (a, w') => k a w'
       | None => None
       end.

Definition emit (e : Event) (w : World) : World :=
  mkWorld (w_session w) (w_env w) (w_trace w ++ [e]).

Definition getSession : M ConversationSession := λ w, Some (w_session w, w).

Definition logPrintf (line : string) : M unit := λ w, Some (tt, emit (EvLog line) w).

(** [session.AddMessage(role, content)] on the session of the world. *)
Definition addMessage (role content : string) : M unit :=
  λ w, s' ← Session.AddMessage role content (w_session w);
       Some (tt, mkWorld s' (w_env w) (w_trace w)).

(** A provider call: the call is recorded, then the provider runs on the
    outside world. *)
Definition call {A} (e : Event) (f : Env → A * Env) : M A :=
  λ w, let '(a, env') := f (w_env w) in
       Some (a, mkWorld (w_session w) env' (w_trace w ++ [e])).

#[local] Notation "'let*' x := m 'in' k" := (bind m (λ x, k))
  (at level 10, x name, m at level 100, k at level 200, only parsing).
#[local] Notation "'let*' ' p := m 'in' k" := (bind m (λ x, match x with p => k end))
  (at level 10, p pattern, m at level 100, k at level 200, only parsing).
#[local] Notation "m ;; k" := (bind m (λ _, k))
  (at level 100, k at level 200, right associativity, only parsing).

(** [Transcribe(ctx, audioData)]. *)
Definition Transcribe (o : Orchestrator) (audioData : list Byte.byte)
  : M (string * option Go.error) :=
  call (EvTranscribe audioData) (stt_Transcribe (stt o) audioData).

(** [GenerateResponse(ctx, session)]: the provider receives
    [session.Context]. *)
Definition GenerateResponse (o : Orchestrator) : M (string * option Go.error) :=
  let* session := getSession in
  call (EvComplete (Context session)) (llm_Complete (llm o) (Context session)).

(** [Synthesize(ctx, text, voice)]. *)
Definition Synthesize (o : Orchestrator) (text : string) (voice : Voice)
  : M (list Byte.byte * option Go.error) :=
  call (EvSynthesize text voice) (tts_Synthesize (tts o) text voice).

(** [SynthesizeStream(ctx, text, voice, onChunk)]. *)
Definition SynthesizeStream (o : Orchestrator) (text : string) (voice : Voice)
           (onChunk : Sink) : M (option Go.error) :=
  call (EvStreamSynthesize text voice) (tts_StreamSynthesize (tts o) text voice onChunk).

(** [ProcessAudio(ctx, session, audioData)]: the transcript, the audio and
    the error it returns. *)
Definition ProcessAudio (o : Orchestrator) (audioData : list Byte.byte)
  : M (string * list Byte.byte * option Go.error) :=
  (* 1. Transcribe audio *)
  let* '(transcript, err) := Transcribe o audioData in
  match err with
  | Some err => ret ("", [], Some (Go.Errorf_w "transcription failed: " err))
  | None =>
    if String.eqb (TrimSpace transcript) ""
    then ret ("", [], Some (Go.Errorf "empty transcription"))
    else
      let* session := getSession in
      logPrintf ("[" +:+ ID session +:+ "] Transcribed: " +:+ transcript) ;;
      addMessage "user" transcript ;;
      (* 2. Get LLM response *)
      let* '(response, err) := GenerateResponse o in
      match err with
      | Some err => ret (transcript, [], Some (Go.Errorf_w "LLM failed: " err))
      | None =>
        let* session := getSession in
        logPrintf ("[" +:+ ID session +:+ "] Response: " +:+ response) ;;
        addMessage "assistant" response ;;
        (* 3. Synthesize response to audio *)
        let* session := getSession in
        let* '(audioBytes, err) := Synthesize o response (CurrentVoice session) in
        match err with
        | Some err => ret (transcript, [], Some (Go.Errorf_w "TTS failed: " err))
        | None => ret (transcript, audioBytes, None)
        end
      end
  end.

(** [ProcessAudioStream(ctx, session, audioData, onAudioChunk)]: the
    transcript and the error it returns. *)
Definition ProcessAudioStream (o : Orchestrator) (audioData : list Byte.byte)
           (onAudioChunk : Sink) : M (string * option Go.error) :=
  (* 1. Transcribe *)
  let* '(transcript, err) := Transcribe o audioData in
  match err with
  | Some err => ret ("", Some (Go.Errorf_w "transcription failed: " err))
  | None =>
    if String.eqb (TrimSpace transcript) ""
    then ret ("", Some (Go.Errorf "empty transcription"))
    else
      let* session := getSession in
      logPrintf ("[" +:+ ID session +:+ "] Transcribed: " +:+ transcript) ;;
      addMessage "user" transcript ;;
      (* 2. Get LLM response *)
      let* '(response, err) := GenerateResponse o in
      match err with
      | Some err => ret (transcript, Some (Go.Errorf_w "LLM failed: " err))
      | None =>
        let* session := getSession in
        logPrintf ("[" +:+ ID session +:+ "] Response: " +:+ response) ;;
        addMessage "assistant" response ;;
        (* 3. Stream TTS output *)
        let* session := getSession in
        let* err := SynthesizeStream o response (CurrentVoice session) onAudioChunk in
        match err with
        | Some err => ret (transcript, Some (Go.Errorf_w "TTS stream failed: " err))
        | None => ret (transcript, None)
        end
      end
  end.

(** [NewSessionWithDefaults(userID)]. *)
Definition NewSessionWithDefaults (o : Orchestrator) (userID : string)
  : ConversationSession :=
  let session := Session.NewConversationSession userID in
  let session := Session.set_MaxMessages (MaxContextMessages (config o)) session in
  let session := Session.set_CurrentVoice (VoiceStyle (config o)) session in
  Session.set_CurrentLanguage (ConfigLanguage (config o)) session.

(** The messages handed to the LLM provider, call by call. *)
Definition completions (tr : list Event) : list (list Message) :=
  omap (λ e, match e with EvComplete ms => Some ms | _ => None end) tr.

(** The provider calls of a trace, the log lines left out. *)
Definition providerCalls (tr : list Event) : list Event :=
  omap (λ e, match e with EvLog _ => None | _ => Some e end) tr.

(** A write to the session the pointer refers to. *)
Definition modifySession (f : ConversationSession → ConversationSession) : M unit :=
  λ w, Some (tt, mkWorld (f (w_session w)) (w_env w) (w_trace w)).

(** [HandleInterruption(session)]. *)
Definition HandleInterruption (o : Orchestrator) : M unit :=
  let* session := getSession in
  logPrintf ("[" +:+ ID session +:+ "] Conversation interrupted").

(** [UpdateConfig(cfg)] and [GetConfig()], one call at a time (the lock
    orders concurrent calls). *)
Definition UpdateConfig (cfg : Config) (o : Orchestrator) : Orchestrator :=
  mkOrchestrator (stt o) (llm o) (tts o) cfg.

Definition GetConfig (o : Orchestrator) : Config := config o.

(** [GetProviders()]. *)
Definition GetProviders (o : Orchestrator) : gmap string string :=
  <["tts" := tts_Name (tts o)]>
    (<["llm" := llm_Name (llm o)]>
       (<["stt" := stt_Name (stt o)]> ∅)).

(** [SetSystemPrompt(session, prompt)]. *)
Definition SetSystemPrompt (o : Orchestrator) (prompt : string) : M unit :=
  addMessage "system" prompt.

(** [SetVoice(session, voice)]. *)
Definition SetVoice (o : Orchestrator) (voice : Voice) : M unit :=
  modifySession (Session.set_CurrentVoice voice).

(** [SetLanguage(session, lang)]. *)
Definition SetLanguage (o : Orchestrator) (lang : Language) : M unit :=
  modifySession (Session.set_CurrentLanguage lang).

(** [ResetSession(session)]. *)
Definition ResetSession (o : Orchestrator) : M unit :=
  modifySession Session.ClearContext.

End Pipeline.

Arguments Sink : clear implicits.
Arguments STTProvider : clear implicits.
Arguments LLMProvider : clear implicits.
Arguments TTSProvider : clear implicits.
Arguments Orchestrator : clear implicits.
Arguments World : clear implicits.

End Orchestrator.

(** ** Go's [time] package, as far as the detector uses it *)

Module Time.

(** A [time.Time]: the wall clock in nanoseconds since the zero instant
    (January 1, year 1, 00:00:00 UTC) and, for a value read from
    [time.Now()], the monotonic clock reading. *)
Record Time : Type := mkTime {
  wall : Z;
  mono : option Z
}.

(** A [time.Duration]: nanoseconds in an [int64]. *)
Definition Duration : Type := Z.

Definition Millisecond : Duration := 1000000.
Definition Second : Duration := 1000000000.

(** [time.Time{}]. *)
Definition zero : Time := mkTime 0 None.

Definition IsZero (t : Time) : bool := wall t =? 0.

Definition saturate (d : Z) : Duration :=
  Z.max Go.minInt64 (Z.min Go.maxInt64 d).

(** [t.Sub(u)]: on the monotonic readings when both have one, saturating. *)
Definition Sub (t u : Time) : Duration :=
  match mono t, mono u with
  | Some a, Some b => saturate (a - b)
  | _, _ => saturate (wall t - wall u)
  end.

(** [t.UnixMilli()]. *)
Definition UnixMilli (t : Time) : Z :=
  Go.wrap64 (wall t `div` 1000000 - 62135596800000).

End Time.

(** ** pkg/orchestrator/vad.go: the RMS voice-activity detector *)

(** Modelled from the spec: the declarations of [VADEventType] and [VADEvent]
    are not among the sources; an event is one of SpeechStart, SpeechEnd and
    Silence together with a timestamp in epoch milliseconds. *)
Inductive VADEventType : Type :=
| VADSpeechStart
| VADSpeechEnd
| VADSilence.

#[global] Instance VADEventType_eq_dec : EqDecision VADEventType.
Proof. solve_decision. Defined.

Record VADEvent : Type := mkVADEvent {
  Type_ : VADEventType;     (* the field [Type] *)
  Timestamp : Z
}.

#[global] Instance VADEvent_eq_dec : EqDecision VADEvent.
Proof. solve_decision. Defined.

Record RMSVAD : Type := mkRMSVAD {
  threshold : float;
  silenceLimit : Time.Duration;
  isSpeaking : bool;
  silenceStart : Time.Time;
  (* Adaptive noise floor tracking *)
  adaptiveMode : bool;
  noiseFloor : float;
  alpha : float;
  (* Hysteresis and confirmed speech detection *)
  consecutiveFrames : Z;
  minConfirmed : Z;
  lastRMS : float
}.

Module VAD.

#[local] Open Scope float_scope.

Definition set_threshold (x : float) (v : RMSVAD) : RMSVAD :=
  mkRMSVAD x (silenceLimit v) (isSpeaking v) (silenceStart v) (adaptiveMode v)
           (noiseFloor v) (alpha v) (consecutiveFrames v) (minConfirmed v) (lastRMS v).

Definition set_isSpeaking (x : bool) (v : RMSVAD) : RMSVAD :=
  mkRMSVAD (threshold v) (silenceLimit v) x (silenceStart v) (adaptiveMode v)
           (noiseFloor v) (alpha v) (consecutiveFrames v) (minConfirmed v) (lastRMS v).

Definition set_silenceStart (x : Time.Time) (v : RMSVAD) : RMSVAD :=
  mkRMSVAD (threshold v) (silenceLimit v) (isSpeaking v) x (adaptiveMode v)
           (noiseFloor v) (alpha v) (consecutiveFrames v) (minConfirmed v) (lastRMS v).

Definition set_adaptiveMode (x : bool) (v : RMSVAD) : RMSVAD :=
  mkRMSVAD (threshold v) (silenceLimit v) (isSpeaking v) (silenceStart v) x
           (noiseFloor v) (alpha v) (consecutiveFrames v) (minConfirmed v) (lastRMS v).

Definition set_noiseFloor (x : float) (v : RMSVAD) : RMSVAD :=
  mkRMSVAD (threshold v) (silenceLimit v) (isSpeaking v) (silenceStart v) (adaptiveMode v)
           x (alpha v) (consecutiveFrames v) (minConfirmed v) (lastRMS v).

Definition set_consecutiveFrames (x : Z) (v : RMSVAD) : RMSVAD :=
  mkRMSVAD (threshold v) (silenceLimit v) (isSpeaking v) (silenceStart v) (adaptiveMode v)
           (noiseFloor v) (alpha v) x (minConfirmed v) (lastRMS v).

Definition set_minConfirmed (x : Z) (v : RMSVAD) : RMSVAD :=
  mkRMSVAD (threshold v) (silenceLimit v) (isSpeaking v) (silenceStart v) (adaptiveMode v)
           (noiseFloor v) (alpha v) (consecutiveFrames v) x (lastRMS v).

Definition set_lastRMS (x : float) (v : RMSVAD) : RMSVAD :=
  mkRMSVAD (threshold v) (silenceLimit v) (isSpeaking v) (silenceStart v) (adaptiveMode v)
           (noiseFloor v) (alpha v) (consecutiveFrames v) (minConfirmed v) x.

(** [NewRMSVAD(threshold, silenceLimit)]; the fields the literal leaves out
    have their zero values. *)
Definition NewRMSVAD (threshold : float) (silenceLimit : Time.Duration) : RMSVAD :=
  mkRMSVAD threshold silenceLimit false Time.zero
           true 0.005 0.05
           0%Z 7%Z 0.

Definition SetAdaptiveMode (enabled : bool) (v : RMSVAD) : RMSVAD :=
  set_adaptiveMode enabled v.

Definition SetMinConfirmed (count : Z) (v : RMSVAD) : RMSVAD :=
  set_minConfirmed count v.

Definition SetThreshold (threshold : float) (v : RMSVAD) : RMSVAD :=
  set_threshold threshold v.

Definition Threshold (v : RMSVAD) : float := threshold v.
Definition LastRMS (v : RMSVAD) : float := lastRMS v.
Definition IsSpeaking (v : RMSVAD) : bool := isSpeaking v.

(** [int16(chunk[i]) | (int16(chunk[i+1]) << 8)]. *)
Definition sample (lo hi : Byte.byte) : Z :=
  Z.lor (Go.byte_val lo) (Go.wrap16 (Z.shiftl (Go.byte_val hi) 8)).

(** The loop of [calculateRMS]: [for i := 0; i < len(chunk)-1; i += 2],
    which runs as long as two bytes are left at [i]. *)
Fixpoint sumSquares (chunk : list Byte.byte) (sum : float) : float :=
  match chunk with
  | lo :: hi :: rest =>
      let f := Go.float64_of_int (sample lo hi) / 32768.0 in
      sumSquares rest (sum + f * f)
  | _ => sum
  end.

(** [calculateRMS(chunk)]. *)
Definition calculateRMS (chunk : list Byte.byte) : float :=
  if (Go.len chunk =? 0)%Z then 0
  else PrimFloat.sqrt (sumSquares chunk 0 / Go.float64_of_int (Go.len chunk ÷ 2)).

(** The noise floor update of [Process] (adaptive mode). *)
Definition trackNoiseFloor (rms : float) (v : RMSVAD) : RMSVAD :=
  if rms <? noiseFloor v then
    (* If current sound is lower than noise floor, it's the new noise floor *)
    set_noiseFloor rms v
  else if negb (isSpeaking v) && (rms <? threshold v * 2) then
    (* Slowly adapt noise floor upwards *)
    set_noiseFloor ((1 - alpha v) * noiseFloor v + alpha v * rms) v
  else v.

(** The threshold of [Process] in adaptive mode, from the updated noise
    floor: at least twice the floor, capped to 0.3. *)
Definition adaptiveThreshold (v : RMSVAD) : float :=
  let effectiveThreshold := threshold v in
  let adaptiveThreshold := noiseFloor v * 2.0 in
  let effectiveThreshold :=
    if effectiveThreshold <? adaptiveThreshold then adaptiveThreshold
    else effectiveThreshold in
  if 0.3 <? effectiveThreshold then 0.3 else effectiveThreshold.

(** The first half of [Process], up to the comparison of the energy with
    the threshold: the detector with [lastRMS] and the noise floor updated,
    and the effective threshold. *)
Definition adapt (rms : float) (v : RMSVAD) : RMSVAD * float :=
  let v := set_lastRMS rms v in
  if adaptiveMode v then
    let v := trackNoiseFloor rms v in
    (v, adaptiveThreshold v)
  else (v, threshold v).

(** [Process(chunk)], with the [time.Now()] it reads: the event (or nil),
    the error, and the detector afterwards. *)
Definition Process (now : Time.Time) (chunk : list Byte.byte) (v : RMSVAD)
  : (option VADEvent * option Go.error) * RMSVAD :=
  let rms := calculateRMS chunk in
  let '(v, effectiveThreshold) := adapt rms v in
  if effectiveThreshold <? rms then
    let v := set_consecutiveFrames (Go.wrap64 (consecutiveFrames v + 1)) v in
    if negb (isSpeaking v) then
      (* Require a sequence of frames above threshold *)
      if (consecutiveFrames v >=? minConfirmed v)%Z then
        let v := set_isSpeaking true v in
        ((Some (mkVADEvent VADSpeechStart (Time.UnixMilli now)), None), v)
      else ((None, None), v) (* Still confirming *)
    else
      let v := set_silenceStart Time.zero v in (* Reset silence timer *)
      ((None, None), v)
  else
    (* Below threshold *)
    let v := set_consecutiveFrames 0%Z v in
    if isSpeaking v then
      let v := if Time.IsZero (silenceStart v) then set_silenceStart now v else v in
      if (Time.Sub now (silenceStart v) >=? silenceLimit v)%Z then
        let v := set_isSpeaking false v in
        let v := set_silenceStart Time.zero v in
        ((Some (mkVADEvent VADSpeechEnd (Time.UnixMilli now)), None), v)
      else ((Some (mkVADEvent VADSilence (Time.UnixMilli now)), None), v)
    else ((Some (mkVADEvent VADSilence (Time.UnixMilli now)), None), v).

Definition Name (v : RMSVAD) : string := "rms_vad".

(** [Reset()]. *)
Definition Reset (v : RMSVAD) : RMSVAD :=
  let v := set_isSpeaking false v in
  let v := set_silenceStart Time.zero v in
  set_consecutiveFrames 0%Z v.

(** The detector [Clone()] allocates; the fields the literal leaves out
    have their zero values. *)
Definition Clone (v : RMSVAD) : RMSVAD :=
  mkRMSVAD (threshold v) (silenceLimit v) false Time.zero
           false 0 0
           0%Z (minConfirmed v) 0.

(** The effective threshold [Process] compares the energy of [chunk] with. *)
Definition effectiveThreshold (chunk : list Byte.byte) (v : RMSVAD) : float :=
  (adapt (calculateRMS chunk) v).2.

(** A frame: the clock reading of the call and the bytes. *)
Definition Frame : Type := Time.Time * list Byte.byte.

(** [Process] frame after frame: what every call returned, and the
    detector at the end. *)
Fixpoint run (frames : list Frame) (v : RMSVAD)
  : list (option VADEvent * option Go.error) * RMSVAD :=
  match frames with
  | [] => ([], v)
  | (now, chunk) :: rest =>
      let '(r, v') := Process now chunk v in
      let '(rs, v'') := run rest v' in
      (r :: rs, v'')
  end.

(** The energy of the frame is above the effective threshold [Process]
    computes for it in state [v]. *)
Definition above (chunk : list Byte.byte) (v : RMSVAD) : bool :=
  effectiveThreshold chunk v <? calculateRMS chunk.

(** Every frame of the sequence is above (or every frame is not above, for
    [b = false]) the effective threshold of the state it is processed in. *)
Fixpoint all_above (b : bool) (frames : list Frame) (v : RMSVAD) : Prop :=
  match frames with
  | [] => True
  | (now, chunk) :: rest =>
      above chunk v = b ∧ all_above b rest (Process now chunk v).2
  end.

Definition isSpeechStart (r : option VADEvent * option Go.error) : bool :=
  match r.1 with
  | Some e => bool_decide (Type_ e = VADSpeechStart)
  | None => false
  end.

(** What a call returns: [nil, nil], or an event read at [now] and [nil]. *)
Definition quiet : option VADEvent * option Go.error := (None, None).

Definition emitted (t : VADEventType) (now : Time.Time)
  : option VADEvent * option Go.error :=
  (Some (mkVADEvent t (Time.UnixMilli now)), None).

(** The speaking state a caller derives from what a call returned:
    SpeechStart sets it, SpeechEnd clears it, anything else leaves it. *)
Definition heard (r : option VADEvent * option Go.error) (before : bool) : bool :=
  match r.1 with
  | Some e =>
      match Type_ e with
      | VADSpeechStart => true
      | VADSpeechEnd => false
      | VADSilence => before
      end
  | None => before
  end.

Definition speakingAfter (rs : list (option VADEvent * option Go.error)) (before : bool)
  : bool :=
  foldl (λ b r, heard r b) before rs.

(** SpeechStart and SpeechEnd take turns in a sequence of returned values:
    a start comes only when not speaking, an end only when speaking. *)
Fixpoint alternating (rs : list (option VADEvent * option Go.error)) (before : bool)
  : bool :=
  match rs with
  | [] => true
  | r :: rest =>
      match r.1 with
      | Some e =>
          match Type_ e with
          | VADSpeechStart => negb before
          | VADSpeechEnd => before
          | VADSilence => true
          end
      | None => true
      end && alternating rest (heard r before)
  end.

End VAD.

(** A store of detectors. [Process], [Reset] and the setters have a pointer
    receiver and [Clone] returns a pointer to a detector it allocates, so the
    detectors of a program live at locations of a heap. *)
Module VADStore.

Definition loc : Type := positive.

(** [v.Clone()] for the detector at [l]: the copy is stored at a location
    that was not in use. [None] is the nil-pointer dereference. *)
Definition Clone (l : loc) (h : gmap loc RMSVAD) : option (loc * gmap loc RMSVAD) :=
  v ← h !! l;
  let l' := fresh (dom h) in
  Some (l', <[l' := VAD.Clone v]> h).

(** The methods that write to their receiver. *)
Inductive Call : Type :=
| CallSetAdaptiveMode (enabled : bool)
| CallSetMinConfirmed (count : Z)
| CallSetThreshold (threshold : float)
| CallProcess (now : Time.Time) (chunk : list Byte.byte)
| CallReset.

Definition apply (c : Call) (v : RMSVAD) : RMSVAD :=
  match c with
  | CallSetAdaptiveMode enabled => VAD.SetAdaptiveMode enabled v
  | CallSetMinConfirmed count => VAD.SetMinConfirmed count v
  | CallSetThreshold threshold => VAD.SetThreshold threshold v
  | CallProcess now chunk => (VAD.Process now chunk v).2
  | CallReset => VAD.Reset v
  end.

(** One method call on the detector at [l]. *)
Definition invoke (c : Call) (l : loc) (h : gmap loc RMSVAD) : option (gmap loc RMSVAD) :=
  v ← h !! l; Some (<[l := apply c v]> h).

Fixpoint invokes (cs : list Call) (l : loc) (h : gmap loc RMSVAD)
  : option (gmap loc RMSVAD) :=
  match cs with
  | [] => Some h
  | c :: rest => h' ← invoke c l h; invokes rest l h'
  end.

(** The detector after a sequence of calls on it. *)
Definition applies (cs : list Call) (v : RMSVAD) : RMSVAD :=
  foldl (λ v c, apply c v) v cs.

(** The calls that set a parameter of the detector. *)
Definition isSetter (c : Call) : bool :=
  match c with
  | CallProcess _ _ | CallReset => false
  | _ => true
  end.

End VADStore.

(** ** orchestrator_test.go: the mock providers *)

Module Mock.
Section Mocks.
Context {Env : Type}.

Record MockSTTProvider : Type := mkMockSTT {
  transcribeResult : string;
  transcribeErr : option Go.error
}.

Record MockLLMProvider : Type := mkMockLLM {
  completeResult : string;
  completeErr : option Go.error
}.

Record MockTTSProvider : Type := mkMockTTS {
  synthesizeResult : list Byte.byte;
  synthesizeErr : option Go.error;
  streamErr : option Go.error
}.

Definition STT (m : MockSTTProvider) : Orchestrator.STTProvider Env :=
  Orchestrator.mkSTT (λ _ env, ((transcribeResult m, transcribeErr m), env)) "MockSTT".

Definition LLM (m : MockLLMProvider) : Orchestrator.LLMProvider Env :=
  Orchestrator.mkLLM (λ _ env, ((completeResult m, completeErr m), env)) "MockLLM".

Definition TTS (m : MockTTSProvider) : Orchestrator.TTSProvider Env :=
  Orchestrator.mkTTS
    (λ _ _ env, ((synthesizeResult m, synthesizeErr m), env))
    (λ _ _ onChunk env,
       match streamErr m with
       | Some err => (Some err, env)
       | None => onChunk (synthesizeResult m) env
       end)
    "MockTTS".

End Mocks.

(** [strings.TrimSpace] on ASCII text, whose white space is ['\t'], ['\n'],
    ['\v'], ['\f'], ['\r'] and [' ']: the instance of the controller's
    parameter that the examples run with. *)
Definition asciiSpace (c : ascii) : bool :=
  let n := nat_of_ascii c in
  ((9 <=? n)%nat && (n <=? 13)%nat) || (n =? 32)%nat.

Fixpoint trimLeft (s : list ascii) : list ascii :=
  match s with
  | c :: rest => if asciiSpace c then trimLeft rest else s
  | [] => []
  end.

Definition TrimSpaceASCII (s : string) : string :=
  string_of_list_ascii
    (reverse (trimLeft (reverse (trimLeft (list_ascii_of_string s))))).

(** A chunk sink that appends every chunk to the caller's buffer. *)
Definition collect : Orchestrator.Sink (list (list Byte.byte)) :=
  λ chunk chunks, (None, chunks ++ [chunk]).

(** The outside world of the tests: the chunks the sink has received. *)
Definition Chunks : Type := list (list Byte.byte).

(** The orchestrator of [TestProcessAudio], with the window size and the
    TTS mock left open. *)
Definition orchestrator (maxContextMessages : Z) (tts : MockTTSProvider)
  : Orchestrator.Orchestrator Chunks :=
  Orchestrator.New
    (STT (mkMockSTT "Hello, how are you?" None))
    (LLM (mkMockLLM "I'm doing great, thanks for asking!" None))
    (TTS tts)
    (mkConfig 16000 1 2 maxContextMessages VoiceF1 LanguageEn 30 60 30).

(** The same with an STT mock that hears only white space. *)
Definition silentOrchestrator : Orchestrator.Orchestrator Chunks :=
  Orchestrator.New
    (STT (mkMockSTT "  " None))
    (LLM (mkMockLLM "I'm doing great, thanks for asking!" None))
    (TTS (mkMockTTS [Byte.x01; Byte.x02; Byte.x03; Byte.x04] None None))
    DefaultConfig.

Definition workingTTS : MockTTSProvider :=
  mkMockTTS [Byte.x01; Byte.x02; Byte.x03; Byte.x04] None None.

Definition failingTTS : MockTTSProvider :=
  mkMockTTS [] (Some (Go.errorString "synthesis unavailable")) None.

(** A new session of the orchestrator, nothing called yet. *)
Definition world (o : Orchestrator.Orchestrator Chunks) : Orchestrator.World Chunks :=
  Orchestrator.mkWorld (Orchestrator.NewSessionWithDefaults o "test_user") [] [].

Definition testAudio : list Byte.byte := [Byte.xff; Byte.xfe].

End Mock.

(** * Properties *)

(** ** The conversation window *)

Section SessionWindow.
Import Session.

Lemma wrap64_small (z : Z) : Go.minInt64 ≤ z ≤ Go.maxInt64 → Go.wrap64 z = z.
Proof.
  unfold Go.wrap64, Go.wrap, Go.minInt64, Go.maxInt64. intros H.
  rewrite Z.mod_small; lia.
Qed.

Lemma lastn_all {A} (n : nat) (l : list A) : (length l ≤ n)%nat → lastn n l = l.
Proof. intros H. unfold lastn. by replace (length l - n)%nat with 0%nat by lia. Qed.

Lemma lastn_length {A} (n : nat) (l : list A) : length (lastn n l) = (length l `min` n)%nat.
Proof. unfold lastn. rewrite length_drop. lia. Qed.

Lemma lastn_min {A} (n : nat) (l : list A) : lastn (length l `min` n) l = lastn n l.
Proof. unfold lastn. f_equal. lia. Qed.

(** Appending to a window and trimming again is trimming the whole history. *)
Lemma lastn_app_lastn {A} (n : nat) (l k : list A) :
  lastn n (lastn n l ++ k) = lastn n (l ++ k).
Proof.
  unfold lastn. rewrite !length_app, length_drop.
  rewrite !drop_app, drop_drop, length_drop.
  f_equal; f_equal; lia.
Qed.

(** The trim keeps the last [maxMessages] messages, whenever its slice
    index is an [int]. *)
Lemma trim_lastn (m : Z) (ctx : list Message) :
  0 ≤ m → Go.len ctx - m ≤ Go.maxInt64 →
  trim m ctx = Some (lastn (Z.to_nat m) ctx).
Proof.
  intros Hm Hfit. unfold trim, Go.slice_from, Go.len in *.
  case_bool_decide as Hgt.
  - rewrite wrap64_small by (unfold Go.minInt64, Go.maxInt64 in *; lia).
    rewrite bool_decide_eq_true_2 by lia.
    unfold lastn. do 2 f_equal. lia.
  - by rewrite lastn_all by lia.
Qed.

Lemma AddMessage_Context (role content : string) (s : ConversationSession) :
  0 ≤ MaxMessages s → Go.len (Context s) - MaxMessages s < Go.maxInt64 →
  ∃ s', AddMessage role content s = Some s'
        ∧ Context s' = lastn (Z.to_nat (MaxMessages s)) (Context s ++ [mkMessage role content])
        ∧ MaxMessages s' = MaxMessages s.
Proof.
  intros Hm Hlen. unfold AddMessage.
  rewrite trim_lastn; [|done|].
  - simpl. eexists; split; [done|].
    destruct (String.eqb role "user"); [done|].
    by destruct (String.eqb role "assistant").
  - unfold Go.len in *. rewrite length_app. simpl. lia.
Qed.

(** The window after a sequence of calls, from a window that is the tail
    of some history. *)
Lemma AddMessages_history (calls : list (string * string)) :
  ∀ (s : ConversationSession) (hist : list Message),
    0 ≤ MaxMessages s →
    Context s = lastn (Z.to_nat (MaxMessages s)) hist →
    ∃ s', AddMessages calls s = Some s'
          ∧ MaxMessages s' = MaxMessages s
          ∧ Context s' = lastn (Z.to_nat (MaxMessages s)) (hist ++ appended calls).
Proof.
  induction calls as [|[role content] rest IH]; intros s hist Hm Hctx.
  - exists s. simpl. by rewrite app_nil_r.
  - assert (Hlen : Go.len (Context s) ≤ MaxMessages s).
    { rewrite Hctx. unfold Go.len. rewrite lastn_length. lia. }
    destruct (AddMessage_Context role content s) as (s1 & Hadd & Hc1 & Hm1);
      [done | unfold Go.maxInt64; lia |].
    destruct (IH s1 (hist ++ [mkMessage role content])) as (s' & Hrun & Hm' & Hc').
    { lia. }
    { by rewrite Hc1, Hm1, Hctx, lastn_app_lastn. }
    exists s'. simpl. rewrite Hadd. simpl.
    rewrite Hm1, <- app_assoc in *. done.
Qed.

(** C1. From a session whose window is within its bound [MaxMessages >= 0]
    (a new session is one), any sequence of [AddMessage] calls succeeds and
    leaves a context of at most [MaxMessages] messages: exactly the last
    min(total, MaxMessages) messages of the history, the context it started
    from followed by the appended messages in call order, so that the oldest
    are dropped first. *)
Theorem AddMessages_sliding_window (s : ConversationSession) (calls : list (string * string)) :
  0 ≤ MaxMessages s →
  Go.len (Context s) ≤ MaxMessages s →
  let history := Context s ++ appended calls in
  let kept := (length history `min` Z.to_nat (MaxMessages s))%nat in
  ∃ s', AddMessages calls s = Some s'
        ∧ MaxMessages s' = MaxMessages s
        ∧ Go.len (Context s') ≤ MaxMessages s
        ∧ length (Context s') = kept
        ∧ Context s' = lastn kept history.
Proof.
  intros Hm Hinv history kept.
  destruct (AddMessages_history calls s (Context s)) as (s' & Hrun & Hm' & Hc'); [done| |].
  { rewrite lastn_all; [done | unfold Go.len in Hinv; lia]. }
  exists s'. subst kept. rewrite lastn_min.
  repeat split; try done.
  - rewrite Hc'. unfold Go.len. rewrite lastn_length. lia.
  - by rewrite Hc', lastn_length.
Qed.

(** A new session with a window of three, after five calls: the last three
    messages remain, oldest first. *)
Lemma AddMessages_sliding_window_witness :
  let s := Session.set_MaxMessages 3 (NewConversationSession "u") in
  let calls := [("system", "p"); ("user", "a"); ("assistant", "b");
                ("user", "c"); ("assistant", "d")] in
  ∃ s', AddMessages calls s = Some s'
        ∧ MaxMessages s' = 3
        ∧ Go.len (Context s') ≤ 3
        ∧ length (Context s') = 3%nat
        ∧ Context s' = [mkMessage "assistant" "b"; mkMessage "user" "c";
                        mkMessage "assistant" "d"].
Proof.
  intros s calls.
  apply (AddMessages_sliding_window s calls); vm_compute; [discriminate | discriminate].
Defined.

(** C10. [AddMessage] is total on a session with [MaxMessages >= 0] whose
    context is a Go slice with room for one more element: when the trim
    runs, its slice index lies within the bounds of the slice, the call
    returns, the message is appended before the trim, and a role other than
    "user" and "assistant" leaves [LastUser] and [LastAssistant] as they
    were. *)
Theorem AddMessage_total (role content : string) (s : ConversationSession) :
  0 ≤ MaxMessages s →
  Go.len (Context s) < Go.maxInt64 →
  let ctx := Context s ++ [mkMessage role content] in
  (Go.len ctx > MaxMessages s →
     0 ≤ Go.wrap64 (Go.len ctx - MaxMessages s) ≤ Go.len ctx)
  ∧ ∃ s', AddMessage role content s = Some s'
          ∧ Context s' = lastn (Z.to_nat (MaxMessages s)) ctx
          ∧ (role ≠ "user" → role ≠ "assistant" →
             LastUser s' = LastUser s ∧ LastAssistant s' = LastAssistant s).
Proof.
  intros Hm Hlen ctx. split.
  - intros Hgt. subst ctx. unfold Go.len in *. rewrite length_app in *. simpl in *.
    rewrite wrap64_small by (unfold Go.minInt64, Go.maxInt64 in *; lia). lia.
  - unfold AddMessage. fold ctx.
    rewrite trim_lastn; [|done|].
    + simpl. eexists; split; [done|]. split.
      * destruct (String.eqb role "user"); [done|].
        by destruct (String.eqb role "assistant").
      * intros Hu Ha.
        apply String.eqb_neq in Hu, Ha. by rewrite Hu, Ha.
    + subst ctx. unfold Go.len in *. rewrite length_app. simpl. lia.
Qed.

(** A system prompt added to a full window of two. *)
Lemma AddMessage_total_witness :
  let s := mkSession "u" [mkMessage "user" "a"; mkMessage "assistant" "b"]
                     "a" "b" 2 VoiceF1 LanguageEn in
  (3 > 2 → 0 ≤ 1 ≤ 3)
  ∧ ∃ s', AddMessage "system" "p" s = Some s'
          ∧ Context s' = [mkMessage "assistant" "b"; mkMessage "system" "p"]
          ∧ ("system" ≠ "user" → "system" ≠ "assistant" →
             LastUser s' = "a" ∧ LastAssistant s' = "b").
Proof.
  intros s. apply (AddMessage_total "system" "p" s); vm_compute; [discriminate | done].
Defined.

End SessionWindow.

(** ** White space *)

Lemma trimLeft_nil (l : list ascii) :
  Mock.trimLeft l = [] ↔ Forall (λ c, Mock.asciiSpace c = true) l.
Proof.
  induction l as [|c l IH]; simpl; [by split|].
  destruct (Mock.asciiSpace c) eqn:Hc.
  - rewrite IH. split; [by constructor|]. by inversion 1.
  - split; [done|]. inversion 1. congruence.
Qed.

Lemma trimLeft_spaces (l : list ascii) :
  Forall (λ c, Mock.asciiSpace c = true) (Mock.trimLeft l) → Mock.trimLeft l = [].
Proof.
  induction l as [|c l IH]; simpl; [done|].
  destruct (Mock.asciiSpace c) eqn:Hc; [done|].
  inversion 1. congruence.
Qed.

(** The instance of [TrimSpace] the examples run with returns the empty
    string exactly on the texts that are empty or made of white space. *)
Lemma TrimSpaceASCII_empty (s : string) :
  Mock.TrimSpaceASCII s = ""
  ↔ Forall (λ c, Mock.asciiSpace c = true) (list_ascii_of_string s).
Proof.
  unfold Mock.TrimSpaceASCII.
  set (l := list_ascii_of_string s). split.
  - intros Hempty.
    assert (Hrev : reverse (Mock.trimLeft (reverse (Mock.trimLeft l))) = []).
    { destruct (reverse _); [done | discriminate]. }
    apply (f_equal reverse) in Hrev. rewrite reverse_involutive in Hrev.
    change (reverse []) with (@nil ascii) in Hrev.
    apply trimLeft_nil in Hrev. rewrite Forall_reverse in Hrev.
    by apply trimLeft_nil, trimLeft_spaces.
  - intros Hall. apply trimLeft_nil in Hall. by rewrite Hall.
Qed.

(** ** The pipeline controller *)

Section PipelineProps.
Import Orchestrator.
Context {Env : Type}.
Variable TrimSpace : string → string.

Implicit Types (o : Orchestrator Env) (w : World Env) (audio : list Byte.byte).

Ltac pipeline :=
  unfold ProcessAudio, ProcessAudioStream, Transcribe, GenerateResponse,
    Synthesize, SynthesizeStream, bind, call, ret, getSession, logPrintf,
    addMessage, emit; simpl.

Lemma last_lastn {A} (n : nat) (l : list A) (x : A) :
  (1 ≤ n)%nat → last (Session.lastn n (l ++ [x])) = Some x.
Proof.
  intros Hn. unfold Session.lastn. rewrite length_app. simpl.
  rewrite drop_app_le by lia. apply last_snoc.
Qed.

Lemma completions_snoc (tr : list (@Event)) (e : Event) :
  completions (tr ++ [e])
  = completions tr ++ match e with EvComplete ms => [ms] | _ => [] end.
Proof. unfold completions. rewrite omap_app. by destruct e. Qed.

(** C5. When the STT provider succeeds with a text that [TrimSpace] reduces
    to the empty string, [ProcessAudio] and [ProcessAudioStream] return the
    error "empty transcription" after the one call to the STT provider:
    the LLM provider is not called and the session is as it was. *)
Theorem empty_transcription_rejected o audio (onChunk : Sink Env) w
        (transcript : string) (env' : Env) :
  stt_Transcribe (stt o) audio (w_env w) = ((transcript, None), env') →
  TrimSpace transcript = "" →
  let w' := mkWorld (w_session w) env' (w_trace w ++ [EvTranscribe audio]) in
  ProcessAudio TrimSpace o audio w
    = Some (("", [], Some (Go.Errorf "empty transcription")), w')
  ∧ ProcessAudioStream TrimSpace o audio onChunk w
    = Some (("", Some (Go.Errorf "empty transcription")), w')
  ∧ w_session w' = w_session w
  ∧ completions (w_trace w') = completions (w_trace w).
Proof.
  intros Hstt Hempty w'. subst w'. pipeline.
  rewrite Hstt, Hempty. simpl.
  repeat split. by rewrite completions_snoc, app_nil_r.
Qed.

(** The user turn of a call, on a window of at least one message. *)
Lemma AddMessage_user (transcript : string) (s : ConversationSession) :
  1 ≤ MaxMessages s →
  Go.len (Context s) < Go.maxInt64 →
  ∃ s1, Session.AddMessage "user" transcript s = Some s1
        ∧ last (Context s1) = Some (mkMessage "user" transcript)
        ∧ MaxMessages s1 = MaxMessages s
        ∧ Go.len (Context s1) ≤ MaxMessages s1
        ∧ ID s1 = ID s.
Proof.
  intros Hm Hlen.
  destruct (AddMessage_Context "user" transcript s) as (s1 & Hadd & Hctx & Hm1);
    [lia | lia |].
  exists s1. repeat split; try done.
  - rewrite Hctx. apply last_lastn. lia.
  - rewrite Hctx, Hm1. unfold Go.len. rewrite lastn_length. lia.
  - unfold Session.AddMessage in Hadd.
    destruct (Session.trim _ _); simplify_eq/=. done.
Qed.

(** C3. On a session with a window of at least one message, when the STT
    provider succeeds with a text that [TrimSpace] does not reduce to the
    empty string, [ProcessAudio] and [ProcessAudioStream] first append the
    user turn, then call the LLM provider exactly once, with the whole
    context of the session as it stands, whose last entry is the user
    message carrying the transcript; the assistant turn is appended to that
    session afterwards, and only when the LLM provider succeeds. *)
Theorem llm_observes_bounded_context o audio (onChunk : Sink Env) w
        (transcript : string) (env1 : Env) :
  1 ≤ MaxMessages (w_session w) →
  Go.len (Context (w_session w)) < Go.maxInt64 →
  stt_Transcribe (stt o) audio (w_env w) = ((transcript, None), env1) →
  TrimSpace transcript ≠ "" →
  ∃ s1, Session.AddMessage "user" transcript (w_session w) = Some s1
        ∧ last (Context s1) = Some (mkMessage "user" transcript)
        ∧ ∀ response lerr env2,
            llm_Complete (llm o) (Context s1) env1 = ((response, lerr), env2) →
            ∃ r w' r' w'',
              ProcessAudio TrimSpace o audio w = Some (r, w')
              ∧ ProcessAudioStream TrimSpace o audio onChunk w = Some (r', w'')
              ∧ completions (w_trace w') = completions (w_trace w) ++ [Context s1]
              ∧ completions (w_trace w'') = completions (w_trace w) ++ [Context s1]
              ∧ match lerr with
                | Some _ => w_session w' = s1 ∧ w_session w'' = s1
                | None =>
                    Session.AddMessage "assistant" response s1 = Some (w_session w')
                    ∧ w_session w'' = w_session w'
                end.
Proof.
  intros Hm Hlen Hstt Htrim.
  destruct (AddMessage_user transcript (w_session w) Hm Hlen)
    as (s1 & Hadd & Hlast & Hm1 & Hlen1 & Hid).
  exists s1. split; [done|]. split; [done|].
  intros response lerr env2 Hllm.
  apply String.eqb_neq in Htrim.
  pipeline. rewrite Hstt, Htrim. simpl. rewrite Hadd. simpl. rewrite Hllm.
  destruct lerr as [e|]; simpl.
  - do 4 eexists. repeat split; simpl;
      by rewrite !completions_snoc, !app_nil_r.
  - destruct (AddMessage_Context "assistant" response s1) as (s2 & Hadd2 & _);
      [lia | unfold Go.maxInt64; lia |].
    rewrite Hadd2. simpl.
    destruct (tts_Synthesize _ _ _ _) as [[audioBytes [e|]] env3];
      destruct (tts_StreamSynthesize _ _ _ _ _) as [[e'|] env3'];
      do 4 eexists; repeat split; simpl;
      by rewrite !completions_snoc, !app_nil_r.
Qed.

Lemma lastn_keeps_suffix {A} (n : nat) (l k : list A) :
  (length k ≤ n)%nat → ∃ older, Session.lastn n (l ++ k) = older ++ k.
Proof.
  intros Hk. unfold Session.lastn. rewrite length_app.
  rewrite drop_app_le by lia. by eexists.
Qed.

(** C4 (amended). On a session with a window of at least two messages, when
    transcription and generation succeed (the transcript not reduced to the
    empty string by [TrimSpace]) and [Synthesize] fails, [ProcessAudio]
    returns the transcript, no audio and an error that names the stage
    ("TTS failed: ...") and wraps the provider's error; the context of the
    session ends with the user turn followed by the assistant turn, and the
    last-turn caches hold them: nothing is rolled back. *)
Theorem synthesis_failure_keeps_turns o audio w
        (transcript response : string) (audioBytes : list Byte.byte)
        (err : Go.error) (env1 env2 env3 : Env) :
  let s := w_session w in
  let user := mkMessage "user" transcript in
  let assistant := mkMessage "assistant" response in
  2 ≤ MaxMessages s →
  Go.len (Context s) < Go.maxInt64 →
  stt_Transcribe (stt o) audio (w_env w) = ((transcript, None), env1) →
  TrimSpace transcript ≠ "" →
  llm_Complete (llm o) (Session.lastn (Z.to_nat (MaxMessages s)) (Context s ++ [user])) env1
    = ((response, None), env2) →
  tts_Synthesize (tts o) response (CurrentVoice s) env2 = ((audioBytes, Some err), env3) →
  ∃ e w',
    ProcessAudio TrimSpace o audio w = Some ((transcript, [], Some e), w')
    ∧ Go.Error e = "TTS failed: " +:+ Go.Error err
    ∧ Go.Unwrap e = Some err
    ∧ (∃ older, Context (w_session w') = older ++ [user; assistant])
    ∧ LastUser (w_session w') = transcript
    ∧ LastAssistant (w_session w') = response.
Proof.
  intros s user assistant Hm Hlen Hstt Htrim Hllm Htts.
  destruct (AddMessage_Context "user" transcript s) as (s1 & Hadd & Hc1 & Hm1);
    [lia | lia |].
  destruct (AddMessage_Context "assistant" response s1) as (s2 & Hadd2 & Hc2 & Hm2).
  { lia. }
  { rewrite Hc1, Hm1. unfold Go.len, Go.maxInt64. rewrite lastn_length. lia. }
  assert (Hvoice : CurrentVoice s1 = CurrentVoice s ∧ LastUser s1 = transcript).
  { unfold Session.AddMessage in Hadd. destruct (Session.trim _ _); simplify_eq/=. done. }
  assert (Hs2 : CurrentVoice s2 = CurrentVoice s1 ∧ LastUser s2 = LastUser s1
                ∧ LastAssistant s2 = response).
  { unfold Session.AddMessage in Hadd2. destruct (Session.trim _ _); simplify_eq/=. done. }
  destruct Hvoice as [Hv1 Hu1]. destruct Hs2 as (Hv2 & Hu2 & Ha2).
  apply String.eqb_neq in Htrim.
  pipeline. fold s. rewrite Hstt, Htrim. simpl. fold s. rewrite Hadd. simpl.
  rewrite Hc1. fold user. rewrite Hllm. simpl. rewrite Hadd2. simpl.
  rewrite Hv2, Hv1, Htts. simpl.
  do 2 eexists. split; [done|]. simpl. repeat split; try congruence.
  rewrite Hc2, Hc1, Hm1, lastn_app_lastn, <- app_assoc. simpl.
  apply lastn_keeps_suffix. simpl. lia.
Qed.

End PipelineProps.

(** The pipeline of [TestProcessAudio]: the LLM mock is handed the one user
    message of the new session. *)
Lemma llm_observes_bounded_context_witness :
  let o := Mock.orchestrator 20 Mock.workingTTS in
  let w := Mock.world o in
  ∃ s1, Session.AddMessage "user" "Hello, how are you?" (Orchestrator.w_session w) = Some s1
        ∧ last (Context s1) = Some (mkMessage "user" "Hello, how are you?")
        ∧ ∀ response lerr env2,
            Orchestrator.llm_Complete (Orchestrator.llm o) (Context s1) [] = ((response, lerr), env2) →
            ∃ r w' r' w'',
              Orchestrator.ProcessAudio Mock.TrimSpaceASCII o Mock.testAudio w = Some (r, w')
              ∧ Orchestrator.ProcessAudioStream Mock.TrimSpaceASCII o Mock.testAudio Mock.collect w
                = Some (r', w'')
              ∧ Orchestrator.completions (Orchestrator.w_trace w')
                = Orchestrator.completions (Orchestrator.w_trace w) ++ [Context s1]
              ∧ Orchestrator.completions (Orchestrator.w_trace w'')
                = Orchestrator.completions (Orchestrator.w_trace w) ++ [Context s1]
              ∧ match lerr with
                | Some _ => Orchestrator.w_session w' = s1 ∧ Orchestrator.w_session w'' = s1
                | None =>
                    Session.AddMessage "assistant" response s1 = Some (Orchestrator.w_session w')
                    ∧ Orchestrator.w_session w'' = Orchestrator.w_session w'
                end.
Proof.
  intros o w.
  apply (llm_observes_bounded_context Mock.TrimSpaceASCII o Mock.testAudio Mock.collect w
           "Hello, how are you?" []).
  - vm_compute. discriminate.
  - vm_compute. reflexivity.
  - reflexivity.
  - vm_compute. discriminate.
Defined.

(** White space from the STT mock: both procedures stop after transcription. *)
Lemma empty_transcription_rejected_witness :
  let o := Mock.silentOrchestrator in
  let w := Mock.world o in
  let w' := Orchestrator.mkWorld (Orchestrator.w_session w) []
              [Orchestrator.EvTranscribe Mock.testAudio] in
  Orchestrator.ProcessAudio Mock.TrimSpaceASCII o Mock.testAudio w
    = Some (("", [], Some (Go.Errorf "empty transcription")), w')
  ∧ Orchestrator.ProcessAudioStream Mock.TrimSpaceASCII o Mock.testAudio Mock.collect w
    = Some (("", Some (Go.Errorf "empty transcription")), w')
  ∧ Orchestrator.w_session w' = Orchestrator.w_session w
  ∧ Orchestrator.completions (Orchestrator.w_trace w')
    = Orchestrator.completions (Orchestrator.w_trace w).
Proof.
  intros o w.
  apply (empty_transcription_rejected Mock.TrimSpaceASCII o Mock.testAudio Mock.collect w "  " []);
    reflexivity.
Defined.

(** C4 as stated fails on a window of one message: after the failed
    synthesis the context holds the assistant turn alone, the user turn
    having been evicted by the trim of the second [AddMessage]. *)
Lemma synthesis_failure_window_of_one :
  let o := Mock.orchestrator 1 Mock.failingTTS in
  ∃ e w',
    Orchestrator.ProcessAudio Mock.TrimSpaceASCII o Mock.testAudio (Mock.world o)
      = Some (("Hello, how are you?", [], Some e), w')
    ∧ Context (Orchestrator.w_session w')
      = [mkMessage "assistant" "I'm doing great, thanks for asking!"]
    ∧ mkMessage "user" "Hello, how are you?" ∉ Context (Orchestrator.w_session w').
Proof.
  intros o. do 2 eexists. split; [vm_compute; reflexivity|]. simpl.
  split; [reflexivity|]. intros Hin. apply list_elem_of_singleton in Hin. discriminate.
Qed.

(** A window of twenty and a failing TTS mock. *)
Lemma synthesis_failure_keeps_turns_witness :
  let o := Mock.orchestrator 20 Mock.failingTTS in
  let user := mkMessage "user" "Hello, how are you?" in
  let assistant := mkMessage "assistant" "I'm doing great, thanks for asking!" in
  ∃ e w',
    Orchestrator.ProcessAudio Mock.TrimSpaceASCII o Mock.testAudio (Mock.world o)
      = Some (("Hello, how are you?", [], Some e), w')
    ∧ Go.Error e = "TTS failed: synthesis unavailable"
    ∧ Go.Unwrap e = Some (Go.errorString "synthesis unavailable")
    ∧ (∃ older, Context (Orchestrator.w_session w') = older ++ [user; assistant])
    ∧ LastUser (Orchestrator.w_session w') = "Hello, how are you?"
    ∧ LastAssistant (Orchestrator.w_session w') = "I'm doing great, thanks for asking!".
Proof.
  intros o user assistant.
  apply (synthesis_failure_keeps_turns Mock.TrimSpaceASCII o Mock.testAudio (Mock.world o)
           "Hello, how are you?" "I'm doing great, thanks for asking!" []
           (Go.errorString "synthesis unavailable") [] [] []).
  - vm_compute. discriminate.
  - vm_compute. reflexivity.
  - reflexivity.
  - vm_compute. discriminate.
  - reflexivity.
  - reflexivity.
Defined.


(** ** The voice-activity detector *)

Section FloatOrder.
#[local] Open Scope float_scope.

Lemma SFcompare_antisym (x y : spec_float) :
  SFcompare y x = option_map CompOpp (SFcompare x y).
Proof.
  destruct x as [sx|sx| |sx m1 e1], y as [sy|sy| |sy m2 e2]; simpl;
    try done; try (by destruct sx); try (by destruct sy); try (by destruct sx, sy).
  assert (Hm : PosDef.Pos.compare_cont Eq m2 m1
               = CompOpp (PosDef.Pos.compare_cont Eq m1 m2))
    by (symmetry; apply (Pos.compare_cont_antisym m1 m2 Eq)).
  rewrite (Z.compare_antisym e1 e2), Hm.
  destruct sx, sy; simpl; try done;
    destruct (e1 ?= e2)%Z; simpl; try done.
Qed.

Lemma ltb_asym (x y : float) : (x <? y) = true → (y <? x) = false.
Proof.
  rewrite !FloatAxioms.ltb_spec. unfold SFltb. rewrite (SFcompare_antisym (Prim2SF x)).
  by destruct (SFcompare _ _) as [[]|].
Qed.

Lemma ltb_irrefl (x : float) : (x <? x) = false.
Proof. destruct (x <? x) eqn:H; [|done]. by rewrite (ltb_asym x x H) in H. Qed.

Lemma leb_not_gt (x y : float) : (x <=? y) = true → (y <? x) = false.
Proof.
  rewrite FloatAxioms.leb_spec, FloatAxioms.ltb_spec. unfold SFleb, SFltb. rewrite (SFcompare_antisym (Prim2SF x)).
  by destruct (SFcompare _ _) as [[]|].
Qed.

End FloatOrder.

Section Detector.
Import VAD.
#[local] Open Scope float_scope.

(** What the first half of [Process] leaves alone. *)
Lemma adapt_fields (rms : float) (v : RMSVAD) :
  let v' := (adapt rms v).1 in
  threshold v' = threshold v ∧ silenceLimit v' = silenceLimit v
  ∧ isSpeaking v' = isSpeaking v ∧ silenceStart v' = silenceStart v
  ∧ adaptiveMode v' = adaptiveMode v ∧ alpha v' = alpha v
  ∧ consecutiveFrames v' = consecutiveFrames v
  ∧ minConfirmed v' = minConfirmed v ∧ lastRMS v' = rms.
Proof.
  unfold adapt, trackNoiseFloor. simpl.
  destruct (adaptiveMode v) eqn:Hmode; simpl; [|by rewrite Hmode].
  destruct (rms <? noiseFloor v); simpl; [by rewrite Hmode|].
  by destruct (negb (isSpeaking v) && (rms <? threshold v * 2)); simpl; rewrite Hmode.
Qed.

(** The cap: whatever the threshold and the noise floor. *)
Lemma adaptiveThreshold_cap (v : RMSVAD) : (0.3 <? adaptiveThreshold v) = false.
Proof.
  unfold adaptiveThreshold.
  destruct (0.3 <? (if threshold v <? noiseFloor v * 2 then _ else _)) eqn:Hcap; [|done].
  reflexivity.
Qed.

(** The floor: a threshold within the cap is never undercut. *)
Lemma adaptiveThreshold_floor (v : RMSVAD) :
  (threshold v <=? 0.3) = true → (adaptiveThreshold v <? threshold v) = false.
Proof.
  intros Hle. unfold adaptiveThreshold.
  destruct (threshold v <? noiseFloor v * 2) eqn:Hraise.
  - destruct (0.3 <? noiseFloor v * 2); [by apply leb_not_gt | by apply ltb_asym].
  - destruct (0.3 <? threshold v); [by apply leb_not_gt | apply ltb_irrefl].
Qed.

(** C2 (amended). In adaptive mode the effective threshold [Process]
    compares the energy of a frame with never exceeds 0.3, and it never
    falls below the configured threshold when that threshold is itself at
    most 0.3. *)
Theorem effective_threshold_bounds (chunk : list Byte.byte) (v : RMSVAD) :
  adaptiveMode v = true →
  (0.3 <? effectiveThreshold chunk v) = false
  ∧ ((threshold v <=? 0.3) = true →
     (effectiveThreshold chunk v <? threshold v) = false).
Proof.
  intros Hmode. unfold effectiveThreshold, adapt. simpl. rewrite Hmode. simpl.
  set (v1 := trackNoiseFloor _ _).
  assert (Hthr : threshold v1 = threshold v).
  { subst v1. unfold trackNoiseFloor. simpl.
    destruct (_ <? _); [done|]. by destruct (_ && _). }
  split; [apply adaptiveThreshold_cap|].
  intros Hle. rewrite <- Hthr in *. by apply adaptiveThreshold_floor.
Qed.

(** A new detector with threshold 0.02 hearing one sample at half scale. *)
Lemma effective_threshold_bounds_witness :
  let v := NewRMSVAD 0.02 Time.Second in
  let chunk := [Byte.x00; Byte.x40] in
  (0.3 <? effectiveThreshold chunk v) = false
  ∧ ((threshold v <=? 0.3) = true →
     (effectiveThreshold chunk v <? threshold v) = false).
Proof.
  intros v chunk. apply (effective_threshold_bounds chunk v). reflexivity.
Defined.

(** C2 as stated fails for a configured threshold above the cap: a new
    detector with threshold 0.5 (adaptive mode is on) classifies its first
    frame against 0.3, which is below 0.5. *)
Lemma effective_threshold_below_static :
  let v := NewRMSVAD 0.5 Time.Second in
  adaptiveMode v = true
  ∧ effectiveThreshold [] v = 0.3
  ∧ (effectiveThreshold [] v <? threshold v) = true.
Proof. repeat split. Qed.

(** C8 (amended). After [Reset] the speaking flag, the silence timer and
    the counter of consecutive frames are those of a new detector with the
    same threshold and silence limit, which are kept; every other field is
    kept too: the adaptive settings and the confirmation count, and also the
    noise floor and the energy of the last frame, which do not go back to
    their initial values. Resetting twice is resetting once. *)
Theorem Reset_clears_speech_state (v : RMSVAD) :
  let fresh := NewRMSVAD (threshold v) (silenceLimit v) in
  Reset v = mkRMSVAD (threshold fresh) (silenceLimit fresh)
                     (isSpeaking fresh) (silenceStart fresh)
                     (adaptiveMode v) (noiseFloor v) (alpha v)
                     (consecutiveFrames fresh) (minConfirmed v) (lastRMS v)
  ∧ isSpeaking (Reset v) = false
  ∧ consecutiveFrames (Reset v) = 0%Z
  ∧ Time.IsZero (silenceStart (Reset v)) = true
  ∧ noiseFloor (Reset v) = noiseFloor v
  ∧ lastRMS (Reset v) = lastRMS v
  ∧ Reset (Reset v) = Reset v.
Proof. intros fresh. unfold Reset. simpl. repeat split. Qed.

(** C8 as stated fails after two frames, one of digital silence and one
    with a sample at half scale: the detector has lowered its noise floor to
    0 and recorded the energy 0.5, and keeps both through [Reset], where a
    new detector has the noise floor 0.005 and the energy 0. *)
Lemma Reset_keeps_history :
  let now := Time.mkTime 63900000000000000000 (Some 1%Z) in
  let v0 := NewRMSVAD 0.02 Time.Second in
  let v := (run [(now, [Byte.x00; Byte.x00]); (now, [Byte.x00; Byte.x40])] v0).2 in
  noiseFloor (Reset v) = 0 ∧ noiseFloor v0 = 0.005
  ∧ lastRMS (Reset v) = 0.5 ∧ lastRMS v0 = 0
  ∧ Reset v ≠ NewRMSVAD (threshold v) (silenceLimit v).
Proof.
  intros now v0 v. repeat split.
  intros Heq. apply (f_equal (λ d, lastRMS d =? 0)) in Heq.
  vm_compute in Heq. discriminate.
Qed.

(** Calls on a live detector succeed and do not touch other locations. *)
Lemma invokes_frame (cs : list VADStore.Call) :
  ∀ (l l' : VADStore.loc) (h : gmap VADStore.loc RMSVAD) (v : RMSVAD),
    l' ≠ l → is_Some (h !! l') → h !! l = Some v →
    ∃ h', VADStore.invokes cs l' h = Some h' ∧ h' !! l = Some v ∧ is_Some (h' !! l').
Proof.
  induction cs as [|c cs IH]; intros l l' h v Hne [c' Hl'] Hl.
  - exists h. by rewrite Hl'.
  - simpl. unfold VADStore.invoke. rewrite Hl'. simpl.
    apply IH; [done| |].
    + rewrite lookup_insert_eq. by eexists.
    + by rewrite lookup_insert_ne.
Qed.

(** C9. [Clone] on the detector at [l] allocates a detector at another
    location. The clone has the threshold, the silence limit and the
    confirmation count of the original and zero values elsewhere: adaptive
    mode off, noise floor 0 and smoothing coefficient 0, whatever the
    adaptive settings and the dynamic state of the original. The original
    is untouched by the allocation and by any sequence of calls on the
    clone. *)
Theorem Clone_independent (h : gmap VADStore.loc RMSVAD) (l : VADStore.loc) (v : RMSVAD) :
  h !! l = Some v →
  ∃ l' h',
    VADStore.Clone l h = Some (l', h')
    ∧ l' ≠ l
    ∧ h' !! l' = Some (mkRMSVAD (threshold v) (silenceLimit v) false Time.zero
                                false 0 0 0%Z (minConfirmed v) 0)
    ∧ h' !! l = Some v
    ∧ ∀ cs : list VADStore.Call,
        ∃ h'', VADStore.invokes cs l' h' = Some h'' ∧ h'' !! l = Some v.
Proof.
  intros Hl. unfold VADStore.Clone. rewrite Hl. simpl.
  set (l' := fresh (dom h)).
  assert (Hfresh : l' ∉ dom h) by apply is_fresh.
  assert (Hne : l' ≠ l).
  { intros ->. apply Hfresh. apply elem_of_dom. by eexists. }
  exists l', (<[l' := Clone v]> h). repeat split; try done.
  - by rewrite lookup_insert_eq.
  - by rewrite lookup_insert_ne.
  - intros cs.
    destruct (invokes_frame cs l l' (<[l' := Clone v]> h) v) as (h'' & Hrun & Hkeep & _);
      [done | | | by exists h''].
    + rewrite lookup_insert_eq. by eexists.
    + by rewrite lookup_insert_ne.
Qed.

(** A speaking, adaptive detector cloned and the clone driven and reset. *)
Lemma Clone_independent_witness :
  let v := mkRMSVAD 0.02 Time.Second true Time.zero true 0.01 0.05 9%Z 3%Z 0.25 in
  let h : gmap VADStore.loc RMSVAD := {[ 1%positive := v ]} in
  ∃ l' h',
    VADStore.Clone 1%positive h = Some (l', h')
    ∧ l' ≠ 1%positive
    ∧ h' !! l' = Some (mkRMSVAD 0.02 Time.Second false Time.zero
                                false 0 0 0%Z 3%Z 0)
    ∧ h' !! 1%positive = Some v
    ∧ ∀ cs : list VADStore.Call,
        ∃ h'', VADStore.invokes cs l' h' = Some h'' ∧ h'' !! 1%positive = Some v.
Proof.
  intros v h. apply (Clone_independent h 1%positive v).
  subst h. by rewrite lookup_singleton_eq.
Defined.

Ltac open_Process chunk v :=
  unfold Process, above, effectiveThreshold in *;
  let v1 := fresh "v1" in
  let eff := fresh "eff" in
  let Had := fresh "Had" in
  let Hf := fresh "Hf" in
  pose proof (adapt_fields (calculateRMS chunk) v) as Hf;
  destruct (adapt (calculateRMS chunk) v) as [v1 eff] eqn:Had;
  simpl in *;
  destruct Hf as (_ & _ & Hsp & _ & _ & _ & Hcf & Hmc & _).

(** A frame at or below the threshold, not speaking: a Silence event. *)
Lemma Process_below (now : Time.Time) (chunk : list Byte.byte) (v : RMSVAD) :
  above chunk v = false → isSpeaking v = false →
  ∃ v', Process now chunk v = (emitted VADSilence now, v')
        ∧ isSpeaking v' = false ∧ minConfirmed v' = minConfirmed v.
Proof.
  intros Hab Hns. open_Process chunk v.
  rewrite Hab. simpl. rewrite Hsp, Hns.
  eexists. split; [done|]. simpl. by rewrite Hsp, Hmc.
Qed.

(** A frame above the threshold, not speaking: the counter goes up, and
    the call is SpeechStart exactly when it reaches [minConfirmed]. *)
Lemma Process_confirming (now : Time.Time) (chunk : list Byte.byte) (v : RMSVAD) :
  above chunk v = true → isSpeaking v = false →
  let c := Go.wrap64 (consecutiveFrames v + 1) in
  ∃ v', Process now chunk v
        = ((if (c >=? minConfirmed v)%Z then emitted VADSpeechStart now else quiet), v')
        ∧ isSpeaking v' = (c >=? minConfirmed v)%Z
        ∧ consecutiveFrames v' = c
        ∧ minConfirmed v' = minConfirmed v.
Proof.
  intros Hab Hns c. open_Process chunk v.
  rewrite Hab. simpl. rewrite Hsp, Hns, Hcf, Hmc. simpl. fold c.
  destruct (c >=? minConfirmed v)%Z; eexists; (split; [done|]); simpl;
    by rewrite ?Hsp, ?Hmc.
Qed.

(** A frame above the threshold while speaking: no event. *)
Lemma Process_speaking (now : Time.Time) (chunk : list Byte.byte) (v : RMSVAD) :
  above chunk v = true → isSpeaking v = true →
  ∃ v', Process now chunk v = (quiet, v') ∧ isSpeaking v' = true.
Proof.
  intros Hab Hsp'. open_Process chunk v.
  rewrite Hab. simpl. rewrite Hsp, Hsp'. simpl.
  eexists. split; [done|]. simpl. by rewrite Hsp.
Qed.

(** Frames at or below the threshold: a Silence event each. *)
Lemma run_below (frames : list Frame) :
  ∀ v, isSpeaking v = false → all_above false frames v →
       (run frames v).1 = map (λ f, emitted VADSilence f.1) frames.
Proof.
  induction frames as [|[now chunk] rest IH]; intros v Hns Hall; [done|].
  destruct Hall as [Hab Hrest].
  destruct (Process_below now chunk v Hab Hns) as (v' & HP & Hns' & _).
  simpl. rewrite HP in *. simpl in *.
  specialize (IH v' Hns' Hrest).
  destruct (run rest v') as [rs v'']. simpl in *. by rewrite IH.
Qed.

(** Frames above the threshold while speaking: no event. *)
Lemma run_speaking (frames : list Frame) :
  ∀ v, isSpeaking v = true → all_above true frames v →
       (run frames v).1 = replicate (length frames) quiet.
Proof.
  induction frames as [|[now chunk] rest IH]; intros v Hsp Hall; [done|].
  destruct Hall as [Hab Hrest].
  destruct (Process_speaking now chunk v Hab Hsp) as (v' & HP & Hsp').
  simpl. rewrite HP in *. simpl in *.
  specialize (IH v' Hsp' Hrest).
  destruct (run rest v') as [rs v'']. simpl in *. by rewrite IH.
Qed.

(** Frames above the threshold with [k + 1] of them still needed: no event
    for [k] frames, SpeechStart on the next, no event afterwards. *)
Lemma run_confirming (k : nat) :
  ∀ (frames : list Frame) (v : RMSVAD),
    isSpeaking v = false →
    (0 ≤ consecutiveFrames v)%Z →
    (minConfirmed v ≤ Go.maxInt64)%Z →
    (consecutiveFrames v + Z.of_nat k + 1 = minConfirmed v)%Z →
    all_above true frames v →
    (k < length frames)%nat →
    ∃ now chunk,
      frames !! k = Some (now, chunk)
      ∧ (run frames v).1 = replicate k quiet ++ [emitted VADSpeechStart now]
                           ++ replicate (length frames - S k) quiet.
Proof.
  induction k as [|k IH]; intros [|[now chunk] rest] v Hns Hc0 Hmax Hc Hall Hlen;
    simpl in Hlen; try lia; destruct Hall as [Hab Hrest];
    destruct (Process_confirming now chunk v Hab Hns) as (v' & HP & Hsp' & Hc' & Hm');
    rewrite wrap64_small in * by (unfold Go.minInt64, Go.maxInt64 in *; lia);
    simpl; rewrite HP in *; simpl in *.
  - rewrite (proj2 (Z.geb_le _ _)) in * by lia.
    exists now, chunk. split; [done|].
    pose proof (run_speaking rest v' Hsp' Hrest) as Hrun.
    destruct (run rest v') as [rs v'']. simpl in *.
    by rewrite Hrun, Nat.sub_0_r.
  - assert (Hlt : (consecutiveFrames v + 1 >=? minConfirmed v)%Z = false).
    { rewrite Z.geb_leb. apply Z.leb_gt. lia. }
    rewrite Hlt in *.
    destruct (IH rest v') as (now' & chunk' & Hlook & Hrun); try lia; try done.
    exists now', chunk'. split; [done|].
    destruct (run rest v') as [rs v'']. simpl in *. by rewrite Hrun.
Qed.

(** C6. A detector that is not speaking, has counted no frame and confirms
    after [minConfirmed >= 1] frames (a new detector is one, with 7):
    over frames whose energy never exceeds the effective threshold no call
    returns SpeechStart; over a run of at least [minConfirmed] frames whose
    energy exceeds the effective threshold, the first [minConfirmed - 1]
    calls return no event, the [minConfirmed]-th returns SpeechStart, and
    the calls after it return no event: one SpeechStart in all. *)
Theorem SpeechStart_after_confirmation (v : RMSVAD) (frames : list Frame) :
  isSpeaking v = false →
  consecutiveFrames v = 0%Z →
  (1 ≤ minConfirmed v ≤ Go.maxInt64)%Z →
  let n := Z.to_nat (minConfirmed v) in
  (all_above false frames v →
     Forall (λ r, isSpeechStart r = false) (run frames v).1)
  ∧ (all_above true frames v → (n ≤ length frames)%nat →
     ∃ now chunk,
       frames !! (n - 1)%nat = Some (now, chunk)
       ∧ (run frames v).1
         = replicate (n - 1) quiet ++ [emitted VADSpeechStart now]
           ++ replicate (length frames - n) quiet
       ∧ length (filter (λ r, isSpeechStart r = true) (run frames v).1) = 1%nat).
Proof.
  intros Hns Hc Hmin n. split.
  - intros Hall. rewrite (run_below frames v Hns Hall).
    apply Forall_map, Forall_true. done.
  - intros Hall Hlen.
    destruct (run_confirming (n - 1) frames v) as (now & chunk & Hlook & Hrun);
      try done; try lia.
    exists now, chunk. split; [done|].
    replace (S (n - 1)) with n in Hrun by lia.
    split; [done|]. rewrite Hrun.
    rewrite !filter_app, !length_app.
    assert (Hq : ∀ m, filter (λ r, isSpeechStart r = true) (replicate m quiet) = []).
    { induction m as [|m IHm]; [done|]. simpl. by rewrite filter_cons_False. }
    by rewrite !Hq.
Qed.

(** A new detector with threshold 0.02: eight frames of digital silence
    bring Silence events only; eight frames of one sample at half scale
    bring SpeechStart with the seventh. *)
Lemma SpeechStart_after_confirmation_witness :
  let v := NewRMSVAD 0.02 Time.Second in
  let at_ (i : Z) (chunk : list Byte.byte) : Frame :=
    (Time.mkTime (63900000000000000000 + i * 10000000) (Some (i * 10000000)%Z), chunk) in
  let frames (chunk : list Byte.byte) : list Frame :=
    map (λ i, at_ i chunk) [1; 2; 3; 4; 5; 6; 7; 8]%Z in
  Forall (λ r, isSpeechStart r = false) (run (frames [Byte.x00; Byte.x00]) v).1
  ∧ ∃ now chunk,
      frames [Byte.x00; Byte.x40] !! 6%nat = Some (now, chunk)
      ∧ (run (frames [Byte.x00; Byte.x40]) v).1
        = replicate 6 quiet ++ [emitted VADSpeechStart now] ++ replicate 1 quiet
      ∧ length (filter (λ r, isSpeechStart r = true)
                       (run (frames [Byte.x00; Byte.x40]) v).1) = 1%nat.
Proof.
  intros v at_ frames.
  assert (Hmin : (1 ≤ minConfirmed v ≤ Go.maxInt64)%Z) by (vm_compute; split; discriminate).
  split.
  - apply (SpeechStart_after_confirmation v (frames [Byte.x00; Byte.x00]) eq_refl eq_refl Hmin).
    vm_compute. tauto.
  - apply (SpeechStart_after_confirmation v (frames [Byte.x00; Byte.x40]) eq_refl eq_refl Hmin).
    + vm_compute. tauto.
    + vm_compute. lia.
Defined.

(** [Process] returns a nil error, whatever the frame. *)
Lemma Process_never_fails (now : Time.Time) (chunk : list Byte.byte) (v : RMSVAD) :
  (Process now chunk v).1.2 = None.
Proof.
  unfold Process. destruct (adapt _ _) as [v1 eff].
  repeat (match goal with |- context [if ?b then _ else _] => destruct b end); done.
Qed.

Lemma sumSquares_odd (n : nat) :
  ∀ (chunk : list Byte.byte) (b : Byte.byte) (sum : float),
    length chunk = (2 * n)%nat →
    sumSquares (chunk ++ [b]) sum = sumSquares chunk sum.
Proof.
  induction n as [|n IH]; intros chunk b sum Hlen.
  - by destruct chunk.
  - destruct chunk as [|lo [|hi rest]]; simpl in Hlen; try lia.
    simpl. apply IH. lia.
Qed.

(** A trailing odd byte after at least one complete sample is ignored. *)
Lemma calculateRMS_odd (n : nat) (chunk : list Byte.byte) (b : Byte.byte) :
  length chunk = (2 * n)%nat → (1 ≤ n)%nat →
  calculateRMS (chunk ++ [b]) = calculateRMS chunk.
Proof.
  intros Hlen Hn. unfold calculateRMS, Go.len.
  rewrite (sumSquares_odd n) by done.
  rewrite length_app, Hlen. simpl length.
  rewrite (proj2 (Z.eqb_neq _ 0)) by lia.
  rewrite (proj2 (Z.eqb_neq _ 0)) by lia.
  do 3 f_equal.
  rewrite !Z.quot_div_nonneg by lia.
  transitivity (Z.of_nat n).
  - symmetry. apply (Z.div_unique _ 2 _ 1); lia.
  - apply (Z.div_unique _ 2 _ 0); lia.
Qed.

(** Odd frames with a complete sample. [Process] never returns an error,
    the empty frame has energy 0, and a frame of odd length with at least one
    complete sample is processed exactly as the frame without its last byte:
    same event, same detector afterwards. *)
Theorem Process_odd_frame (now : Time.Time) (chunk : list Byte.byte)
        (b : Byte.byte) (v : RMSVAD) (n : nat) :
  length chunk = (2 * n)%nat → (1 ≤ n)%nat →
  (Process now (chunk ++ [b]) v).1.2 = None
  ∧ calculateRMS [] = 0
  ∧ Process now (chunk ++ [b]) v = Process now chunk v.
Proof.
  intros Hlen Hn. split; [apply Process_never_fails|]. split; [done|].
  unfold Process. by rewrite (calculateRMS_odd n).
Qed.

Lemma Process_odd_frame_witness :
  let now := Time.mkTime 63900000000000000000 (Some 1%Z) in
  let v := NewRMSVAD 0.02 Time.Second in
  (Process now [Byte.x00; Byte.x40; Byte.x7f] v).1.2 = None
  ∧ calculateRMS [] = 0
  ∧ Process now [Byte.x00; Byte.x40; Byte.x7f] v = Process now [Byte.x00; Byte.x40] v.
Proof.
  intros now v.
  apply (Process_odd_frame now [Byte.x00; Byte.x40] Byte.x7f v 1); [reflexivity | lia].
Defined.

(** C7 at a frame of one byte. The guard of [calculateRMS] returns 0 for
    the empty frame only: for one byte the loop adds nothing and the sum is
    divided by [len(chunk)/2 = 0], so the energy is NaN, where the frame
    truncated to its last complete sample (the empty frame) has energy 0.
    The two calls return the same Silence event, and leave detectors that
    differ in the recorded energy and in the noise floor. *)
Theorem single_byte_frame_energy :
  let now := Time.mkTime 63900000000000000000 (Some 1%Z) in
  let v := NewRMSVAD 0.02 Time.Second in
  let odd := Process now [Byte.x01] v in
  let truncated := Process now [] v in
  PrimFloat.is_nan (calculateRMS [Byte.x01]) = true
  ∧ calculateRMS [] = 0
  ∧ odd.1 = truncated.1
  ∧ PrimFloat.is_nan (lastRMS odd.2) = true
  ∧ lastRMS truncated.2 = 0
  ∧ noiseFloor odd.2 = 0.005
  ∧ noiseFloor truncated.2 = 0
  ∧ odd.2 ≠ truncated.2.
Proof.
  intros now v odd truncated. repeat split.
  intros Heq. apply (f_equal (λ d, PrimFloat.is_nan (lastRMS d))) in Heq.
  vm_compute in Heq. discriminate.
Qed.

End Detector.

(** * Further properties *)

(** ** Sessions: caches, windows that cannot hold a message, clearing *)

Section SessionMore.
Import Session.

(** What a successful [AddMessage] does to the fields other than the
    context. *)
Lemma AddMessage_fields (role content : string) (s s' : ConversationSession) :
  AddMessage role content s = Some s' →
  ID s' = ID s ∧ MaxMessages s' = MaxMessages s
  ∧ CurrentVoice s' = CurrentVoice s ∧ CurrentLanguage s' = CurrentLanguage s
  ∧ LastUser s' = (if String.eqb role "user" then content else LastUser s)
  ∧ LastAssistant s' = (if String.eqb role "assistant" then content else LastAssistant s).
Proof.
  unfold AddMessage. destruct (trim _ _) as [ctx|]; [|done]. simpl.
  intros [= <-].
  destruct (String.eqb role "user") eqn:Hu; simpl.
  - apply String.eqb_eq in Hu. subst role. done.
  - by destruct (String.eqb role "assistant").
Qed.

(** A sequence of calls keeps the identity and the settings. *)
Lemma AddMessages_settings (calls : list (string * string)) :
  ∀ s s' : ConversationSession,
    AddMessages calls s = Some s' →
    ID s' = ID s ∧ MaxMessages s' = MaxMessages s
    ∧ CurrentVoice s' = CurrentVoice s ∧ CurrentLanguage s' = CurrentLanguage s.
Proof.
  induction calls as [|[role content] rest IH]; intros s s' Hrun; simpl in *.
  - by injection Hrun as <-.
  - destruct (AddMessage role content s) as [s1|] eqn:Hadd; [|done]. simpl in Hrun.
    destruct (AddMessage_fields _ _ _ _ Hadd) as (Hid & Hm & Hv & Hl & _).
    destruct (IH s1 s' Hrun) as (Hid' & Hm' & Hv' & Hl').
    repeat split; congruence.
Qed.

(** X2. After a sequence of [AddMessage] calls that all return, [LastUser]
    is the content of the last call made with the role "user" (what it was
    before when there is none) and [LastAssistant] that of the last call
    made with "assistant", whatever the window has evicted; the identity,
    the window size, the voice and the language are as before. *)
Theorem AddMessages_caches (calls : list (string * string)) :
  ∀ s s' : ConversationSession,
    AddMessages calls s = Some s' →
    LastUser s' = lastContent "user" calls (LastUser s)
    ∧ LastAssistant s' = lastContent "assistant" calls (LastAssistant s)
    ∧ ID s' = ID s ∧ MaxMessages s' = MaxMessages s
    ∧ CurrentVoice s' = CurrentVoice s ∧ CurrentLanguage s' = CurrentLanguage s.
Proof.
  induction calls as [|[role content] rest IH]; intros s s' Hrun; simpl in *.
  - by injection Hrun as <-.
  - destruct (AddMessage role content s) as [s1|] eqn:Hadd; [|done]. simpl in Hrun.
    destruct (AddMessage_fields _ _ _ _ Hadd) as (Hid & Hm & Hv & Hl & Hu & Ha).
    destruct (IH s1 s' Hrun) as (Hu' & Ha' & Hid' & Hm' & Hv' & Hl').
    rewrite Hu', Ha', Hu, Ha. repeat split; congruence.
Qed.

(** A window of one: the caches name turns the context no longer holds. *)
Lemma AddMessages_caches_witness :
  let s := set_MaxMessages 1 (NewConversationSession "u") in
  let calls := [("user", "a"); ("assistant", "b"); ("system", "p")] in
  let s' := mkSession "u" [mkMessage "system" "p"] "a" "b" 1 VoiceF1 LanguageEn in
  LastUser s' = "a" ∧ LastAssistant s' = "b"
  ∧ ID s' = ID s ∧ MaxMessages s' = MaxMessages s
  ∧ CurrentVoice s' = CurrentVoice s ∧ CurrentLanguage s' = CurrentLanguage s.
Proof.
  intros s calls s'. apply (AddMessages_caches calls s s'). reflexivity.
Defined.

Lemma wrap64_high (z : Z) : Go.maxInt64 < z < 2 ^ 64 → Go.wrap64 z = z - 2 ^ 64.
Proof.
  unfold Go.wrap64, Go.wrap, Go.maxInt64. intros H.
  replace (z + 2 ^ (64 - 1)) with ((z - 2 ^ 63) + 1 * 2 ^ 64) by lia.
  rewrite Z.mod_add by lia. rewrite Z.mod_small; lia.
Qed.

(** The trim of a context that is not empty panics on a negative window. *)
Lemma trim_negative_window (m : Z) (ctx : list Message) :
  Go.minInt64 ≤ m < 0 → 0 < Go.len ctx ≤ Go.maxInt64 → trim m ctx = None.
Proof.
  intros Hm Hlen. unfold trim, Go.slice_from.
  unfold Go.minInt64, Go.maxInt64 in *.
  rewrite bool_decide_eq_true_2 by lia.
  rewrite bool_decide_eq_false_2; [done|].
  destruct (decide (Go.len ctx - m ≤ Go.maxInt64)) as [Hfit|Hover];
    unfold Go.maxInt64 in *.
  - rewrite wrap64_small by (unfold Go.minInt64, Go.maxInt64; lia). lia.
  - rewrite wrap64_high by (unfold Go.maxInt64; lia). lia.
Qed.

Lemma AddMessage_negative_window (role content : string) (s : ConversationSession) :
  Go.minInt64 ≤ MaxMessages s < 0 →
  Go.len (Context s) < Go.maxInt64 →
  AddMessage role content s = None.
Proof.
  intros Hm Hlen. unfold AddMessage.
  rewrite trim_negative_window; [done | done |].
  unfold Go.len in *. rewrite length_app. simpl. lia.
Qed.

(** X3. A session whose [MaxMessages] is negative cannot take a message:
    the context is always longer than the window, and the index of the
    trim, [len(s.Context) - s.MaxMessages], lies beyond the end of the
    slice (or below zero once the subtraction has wrapped around), so
    [AddMessage] panics whatever the role and the content. *)
Theorem AddMessage_negative_window_panics (role content : string) (s : ConversationSession) :
  Go.minInt64 ≤ MaxMessages s < 0 →
  Go.len (Context s) < Go.maxInt64 →
  AddMessage role content s = None
  ∧ ∀ calls, calls ≠ [] → AddMessages calls s = None.
Proof.
  intros Hm Hlen. split; [by apply AddMessage_negative_window|].
  intros [|[r c] rest] Hne; [done|]. simpl.
  by rewrite AddMessage_negative_window.
Qed.

Lemma AddMessage_negative_window_panics_witness :
  let s := set_MaxMessages (-1) (NewConversationSession "u") in
  AddMessage "user" "hello" s = None
  ∧ ∀ calls, calls ≠ [] → AddMessages calls s = None.
Proof.
  intros s. apply (AddMessage_negative_window_panics "user" "hello" s); vm_compute;
    [split; [discriminate | reflexivity] | reflexivity].
Defined.

Lemma lastn_app_long {A} (n : nat) (l k : list A) :
  (n ≤ length k)%nat → lastn n (l ++ k) = lastn n k.
Proof.
  intros Hn. unfold lastn. rewrite length_app.
  replace (length l + length k - n)%nat with (length l + (length k - n))%nat by lia.
  apply drop_app_add.
Qed.

(** X5. The system prompt is an ordinary message of the window. After
    [SetSystemPrompt] on a session within its bound, a sequence of calls
    leaves the last [MaxMessages] messages of the old context, the prompt
    and the appended messages: while all of them fit the prompt stays where
    it was put; once as many messages as the window holds have followed it,
    the context is the one the same calls leave without any prompt. *)
Theorem SetSystemPrompt_evicted {Env : Type} (o : Orchestrator.Orchestrator Env)
        (w : Orchestrator.World Env) (prompt : string) (calls : list (string * string)) :
  let s := Orchestrator.w_session w in
  let n := Z.to_nat (MaxMessages s) in
  0 ≤ MaxMessages s →
  Go.len (Context s) ≤ MaxMessages s →
  ∃ s1 s2 s2',
    Orchestrator.SetSystemPrompt o prompt w
      = Some (tt, Orchestrator.mkWorld s1 (Orchestrator.w_env w) (Orchestrator.w_trace w))
    ∧ AddMessages calls s1 = Some s2
    ∧ AddMessages calls s = Some s2'
    ∧ Context s2 = lastn n (Context s ++ mkMessage "system" prompt :: appended calls)
    ∧ ((length (Context s) + 1 + length calls ≤ n)%nat →
       Context s2 = Context s ++ mkMessage "system" prompt :: appended calls)
    ∧ ((n ≤ length calls)%nat →
       Context s2 = lastn n (appended calls) ∧ Context s2 = Context s2').
Proof.
  intros s n Hm Hinv.
  assert (Hstart : Context s = lastn n (Context s))
    by (rewrite lastn_all; [done | unfold Go.len in Hinv; lia]).
  destruct (AddMessage_Context "system" prompt s) as (s1 & Hadd & Hc1 & Hm1);
    [done | unfold Go.maxInt64; lia |].
  destruct (AddMessages_history calls s1 (Context s ++ [mkMessage "system" prompt]))
    as (s2 & Hrun & Hm2 & Hc2); [lia | by rewrite Hc1, Hm1 |].
  destruct (AddMessages_history calls s (Context s)) as (s2' & Hrun' & Hm2' & Hc2');
    [done | done |].
  rewrite Hm1, <- app_assoc in Hc2. simpl in Hc2. fold n in Hc2, Hc2'.
  exists s1, s2, s2'. split.
  { unfold Orchestrator.SetSystemPrompt, Orchestrator.addMessage. fold s. by rewrite Hadd. }
  repeat split; try done.
  - intros Hfit. rewrite Hc2. apply lastn_all.
    rewrite length_app. simpl. unfold appended. rewrite length_map. lia.
  - rewrite Hc2.
    change (mkMessage "system" prompt :: appended calls)
      with ([mkMessage "system" prompt] ++ appended calls).
    rewrite app_assoc. apply lastn_app_long.
    unfold appended. by rewrite length_map.
  - rewrite Hc2, Hc2'.
    change (mkMessage "system" prompt :: appended calls)
      with ([mkMessage "system" prompt] ++ appended calls).
    rewrite app_assoc, !lastn_app_long; [done | |];
      unfold appended; by rewrite length_map.
Qed.

(** A window of two: the prompt is gone after two more messages. *)
Lemma SetSystemPrompt_evicted_witness :
  let o := Mock.orchestrator 2 Mock.workingTTS in
  let w := Mock.world o in
  let s := Orchestrator.w_session w in
  let calls := [("user", "a"); ("assistant", "b")] in
  ∃ s1 s2 s2',
    Orchestrator.SetSystemPrompt o "p" w = Some (tt, Orchestrator.mkWorld s1 [] [])
    ∧ AddMessages calls s1 = Some s2
    ∧ AddMessages calls s = Some s2'
    ∧ Context s2 = [mkMessage "user" "a"; mkMessage "assistant" "b"]
    ∧ ((0 + 1 + 2 ≤ 2)%nat →
       Context s2 = [mkMessage "system" "p"; mkMessage "user" "a"; mkMessage "assistant" "b"])
    ∧ ((2 ≤ 2)%nat →
       Context s2 = [mkMessage "user" "a"; mkMessage "assistant" "b"]
       ∧ Context s2 = Context s2').
Proof.
  intros o w s calls.
  apply (SetSystemPrompt_evicted o w "p" calls); vm_compute; discriminate.
Defined.

(** X4. [ResetSession] undoes any number of [AddMessage] calls: on a
    session that [NewSessionWithDefaults] created and that has only been
    added to since, it restores the session as it was created, with its
    identity, window size, voice and language. *)
Theorem ResetSession_restores_new_session {Env : Type} (o : Orchestrator.Orchestrator Env)
        (userID : string) (calls : list (string * string)) (s' : ConversationSession)
        (env : Env) (tr : list Orchestrator.Event) :
  AddMessages calls (Orchestrator.NewSessionWithDefaults o userID) = Some s' →
  Orchestrator.ResetSession o (Orchestrator.mkWorld s' env tr)
  = Some (tt, Orchestrator.mkWorld (Orchestrator.NewSessionWithDefaults o userID) env tr).
Proof.
  intros Hrun.
  destruct (AddMessages_settings calls _ _ Hrun) as (Hid & Hm & Hv & Hl).
  unfold Orchestrator.ResetSession, Orchestrator.modifySession. simpl.
  do 3 f_equal. unfold ClearContext, set_LastAssistant, set_LastUser, set_Context. simpl.
  rewrite Hid, Hm, Hv, Hl. reflexivity.
Qed.

Lemma ResetSession_restores_new_session_witness :
  let o := Mock.orchestrator 2 Mock.workingTTS in
  let s' := mkSession "test_user" [mkMessage "user" "a"; mkMessage "assistant" "b"]
                      "a" "b" 2 VoiceF1 LanguageEn in
  Orchestrator.ResetSession o (Orchestrator.mkWorld s' [] [])
  = Some (tt, Mock.world o).
Proof.
  intros o s'.
  apply (ResetSession_restores_new_session o "test_user"
           [("system", "p"); ("user", "a"); ("assistant", "b")] s' [] []).
  reflexivity.
Defined.

End SessionMore.

(** ** The pipeline, path by path *)

Section PipelinePaths.
Import Orchestrator.
Context {Env : Type}.
Variable TrimSpace : string → string.

Implicit Types (o : Orchestrator Env) (w : World Env) (audio : list Byte.byte).

Ltac members :=
  repeat match goal with
         | |- _ ∉ _ => intros ?
         | H : _ ∈ [] |- _ => by apply elem_of_nil in H
         | H : _ ∈ _ :: _ |- _ => apply elem_of_cons in H as [H|H]; [congruence|]
         end.

Ltac run_pipeline :=
  unfold ProcessAudio, ProcessAudioStream, Transcribe, GenerateResponse,
    Synthesize, SynthesizeStream, bind, call, ret, getSession, logPrintf,
    addMessage, emit; simpl.

(** X7. When the STT provider fails, [ProcessAudio] and [ProcessAudioStream]
    return an empty transcript, whatever text came with the failure, and the
    provider's error wrapped under "transcription failed: "; the session is
    untouched and no other provider is called. *)
Theorem transcription_failure_stops_pipeline o audio (onChunk : Sink Env) w
        (text : string) (err : Go.error) (env1 : Env) :
  stt_Transcribe (stt o) audio (w_env w) = ((text, Some err), env1) →
  let e := Go.Errorf_w "transcription failed: " err in
  let w' := mkWorld (w_session w) env1 (w_trace w ++ [EvTranscribe audio]) in
  ProcessAudio TrimSpace o audio w = Some (("", [], Some e), w')
  ∧ ProcessAudioStream TrimSpace o audio onChunk w = Some (("", Some e), w')
  ∧ Go.Error e = "transcription failed: " +:+ Go.Error err
  ∧ Go.Unwrap e = Some err.
Proof. intros Hstt e w'. run_pipeline. by rewrite Hstt. Qed.

(** X8. When transcription succeeds and the LLM provider fails, both
    procedures return the transcript and the provider's error wrapped under
    "LLM failed: ", whatever text came with the failure; the user turn stays
    in the session, no assistant turn is added, and the TTS provider is not
    called. *)
Theorem generation_failure_keeps_user_turn o audio (onChunk : Sink Env) w
        (transcript text : string) (err : Go.error) (env1 env2 : Env)
        (s1 : ConversationSession) :
  stt_Transcribe (stt o) audio (w_env w) = ((transcript, None), env1) →
  TrimSpace transcript ≠ "" →
  Session.AddMessage "user" transcript (w_session w) = Some s1 →
  llm_Complete (llm o) (Context s1) env1 = ((text, Some err), env2) →
  let e := Go.Errorf_w "LLM failed: " err in
  let w' := mkWorld s1 env2
              (w_trace w ++ [EvTranscribe audio;
                             EvLog ("[" +:+ ID (w_session w) +:+ "] Transcribed: " +:+ transcript);
                             EvComplete (Context s1)]) in
  ProcessAudio TrimSpace o audio w = Some ((transcript, [], Some e), w')
  ∧ ProcessAudioStream TrimSpace o audio onChunk w = Some ((transcript, Some e), w')
  ∧ Go.Unwrap e = Some err
  ∧ LastUser s1 = transcript.
Proof.
  intros Hstt Htrim Hadd Hllm e w'. apply String.eqb_neq in Htrim.
  destruct (AddMessage_fields _ _ _ _ Hadd) as (_ & _ & _ & _ & Hu & _).
  run_pipeline. rewrite Hstt, Htrim. simpl. rewrite Hadd. simpl. rewrite Hllm. simpl.
  subst w'. rewrite <- !app_assoc. done.
Qed.

(** X6. When the three providers succeed, [ProcessAudio] returns the
    transcript, the audio of the TTS provider and no error. The providers
    are called once each and in order: the LLM with the context that ends
    with the user turn, the TTS with the response of the LLM and the voice
    of the session. The session ends with the user and the assistant turn
    added in that order. *)
Theorem ProcessAudio_success o audio w (transcript response : string)
        (audioBytes : list Byte.byte) (env1 env2 env3 : Env)
        (s1 s2 : ConversationSession) :
  stt_Transcribe (stt o) audio (w_env w) = ((transcript, None), env1) →
  TrimSpace transcript ≠ "" →
  Session.AddMessage "user" transcript (w_session w) = Some s1 →
  llm_Complete (llm o) (Context s1) env1 = ((response, None), env2) →
  Session.AddMessage "assistant" response s1 = Some s2 →
  tts_Synthesize (tts o) response (CurrentVoice (w_session w)) env2
    = ((audioBytes, None), env3) →
  ∃ w',
    ProcessAudio TrimSpace o audio w = Some ((transcript, audioBytes, None), w')
    ∧ w_session w' = s2
    ∧ w_env w' = env3
    ∧ providerCalls (w_trace w')
      = providerCalls (w_trace w)
        ++ [EvTranscribe audio; EvComplete (Context s1);
            EvSynthesize response (CurrentVoice (w_session w))]
    ∧ LastUser s2 = transcript ∧ LastAssistant s2 = response.
Proof.
  intros Hstt Htrim Hadd Hllm Hadd2 Htts. apply String.eqb_neq in Htrim.
  destruct (AddMessage_fields _ _ _ _ Hadd) as (_ & _ & Hv1 & _ & Hu1 & _).
  destruct (AddMessage_fields _ _ _ _ Hadd2) as (_ & _ & Hv2 & _ & Hu2 & Ha2).
  run_pipeline. rewrite Hstt, Htrim. simpl. rewrite Hadd. simpl. rewrite Hllm. simpl.
  rewrite Hadd2. simpl. rewrite Hv2, Hv1, Htts.
  eexists. split; [done|]. simpl. repeat split; try done.
  - unfold providerCalls. rewrite !omap_app. simpl. by rewrite <- !app_assoc.
  - by rewrite Hu2, Hu1.
Qed.

(** X9. When transcription and generation succeed, [ProcessAudioStream]
    hands the response, the voice of the session and the caller's sink to
    the streaming call of the TTS provider, and returns the transcript with
    whatever that call returns: nil, or its error (the provider's own or the
    one the sink reported) wrapped under "TTS stream failed: ". Both turns
    are in the session in either case. *)
Theorem ProcessAudioStream_outcome o audio (onChunk : Sink Env) w
        (transcript response : string) (serr : option Go.error)
        (env1 env2 env3 : Env) (s1 s2 : ConversationSession) :
  stt_Transcribe (stt o) audio (w_env w) = ((transcript, None), env1) →
  TrimSpace transcript ≠ "" →
  Session.AddMessage "user" transcript (w_session w) = Some s1 →
  llm_Complete (llm o) (Context s1) env1 = ((response, None), env2) →
  Session.AddMessage "assistant" response s1 = Some s2 →
  tts_StreamSynthesize (tts o) response (CurrentVoice (w_session w)) onChunk env2
    = (serr, env3) →
  ∃ w',
    ProcessAudioStream TrimSpace o audio onChunk w
      = Some ((transcript, Go.Errorf_w "TTS stream failed: " <$> serr), w')
    ∧ w_session w' = s2
    ∧ w_env w' = env3
    ∧ providerCalls (w_trace w')
      = providerCalls (w_trace w)
        ++ [EvTranscribe audio; EvComplete (Context s1);
            EvStreamSynthesize response (CurrentVoice (w_session w))]
    ∧ (∀ err, serr = Some err →
         Go.Unwrap (Go.Errorf_w "TTS stream failed: " err) = Some err).
Proof.
  intros Hstt Htrim Hadd Hllm Hadd2 Htts. apply String.eqb_neq in Htrim.
  destruct (AddMessage_fields _ _ _ _ Hadd) as (_ & _ & Hv1 & _).
  destruct (AddMessage_fields _ _ _ _ Hadd2) as (_ & _ & Hv2 & _).
  run_pipeline. rewrite Hstt, Htrim. simpl. rewrite Hadd. simpl. rewrite Hllm. simpl.
  rewrite Hadd2. simpl. rewrite Hv2, Hv1, Htts.
  destruct serr as [err|]; simpl; eexists; (split; [done|]); simpl;
    repeat split; try done;
    unfold providerCalls; rewrite !omap_app; simpl; by rewrite <- !app_assoc.
Qed.

(** X10. The two procedures stage a turn alike: on the same world they
    both panic or both return, with the same transcript, the same session
    afterwards and the same contexts handed to the LLM provider; only the
    synthesis call and what it returns differ. *)
Theorem stream_and_batch_agree o audio (onChunk : Sink Env) w :
  (λ rw, (rw.1.1.1, w_session rw.2, completions (w_trace rw.2)))
    <$> ProcessAudio TrimSpace o audio w
  = (λ rw, (rw.1.1, w_session rw.2, completions (w_trace rw.2)))
    <$> ProcessAudioStream TrimSpace o audio onChunk w.
Proof.
  run_pipeline.
  destruct (stt_Transcribe _ _ _) as [[transcript [e|]] env1]; simpl; [done|].
  destruct (String.eqb _ _); simpl; [done|].
  destruct (Session.AddMessage "user" _ _) as [s1|]; simpl; [|done].
  destruct (llm_Complete _ _ _) as [[response [e|]] env2]; simpl; [done|].
  destruct (Session.AddMessage "assistant" _ _) as [s2|]; simpl; [|done].
  destruct (tts_Synthesize _ _ _ _) as [[audioBytes [e|]] env3];
    destruct (tts_StreamSynthesize _ _ _ _ _) as [[e'|] env3']; simpl;
    unfold completions; by rewrite !omap_app.
Qed.

(** X11. On a session whose [MaxMessages] is negative both procedures
    panic as soon as a transcript is to be recorded: the STT provider has
    been called and has succeeded, and the call never returns. *)
Theorem negative_window_panics_pipeline o audio (onChunk : Sink Env) w
        (transcript : string) (env1 : Env) :
  Go.minInt64 ≤ MaxMessages (w_session w) < 0 →
  Go.len (Context (w_session w)) < Go.maxInt64 →
  stt_Transcribe (stt o) audio (w_env w) = ((transcript, None), env1) →
  TrimSpace transcript ≠ "" →
  ProcessAudio TrimSpace o audio w = None
  ∧ ProcessAudioStream TrimSpace o audio onChunk w = None.
Proof.
  intros Hm Hlen Hstt Htrim. apply String.eqb_neq in Htrim.
  run_pipeline. rewrite Hstt, Htrim. simpl.
  by rewrite AddMessage_negative_window.
Qed.

(** X12. The procedures never read the configuration: replacing it with
    [UpdateConfig] changes neither what they return nor what they do, and
    the timeouts in particular are not enforced. [GetConfig] returns the
    configuration last installed, the providers stay the same, and a
    session created afterwards takes its window, voice and language from
    it. *)
Theorem pipeline_ignores_config o (cfg : Config) audio (onChunk : Sink Env) w
        (userID : string) :
  ProcessAudio TrimSpace (UpdateConfig cfg o) audio w = ProcessAudio TrimSpace o audio w
  ∧ ProcessAudioStream TrimSpace (UpdateConfig cfg o) audio onChunk w
    = ProcessAudioStream TrimSpace o audio onChunk w
  ∧ GetConfig (UpdateConfig cfg o) = cfg
  ∧ GetProviders (UpdateConfig cfg o) = GetProviders o
  ∧ NewSessionWithDefaults (UpdateConfig cfg o) userID
    = mkSession userID [] "" "" (MaxContextMessages cfg) (VoiceStyle cfg) (ConfigLanguage cfg).
Proof. repeat split. Qed.

Lemma AddMessage_language (role content : string) (lang : Language) (s : ConversationSession) :
  Session.AddMessage role content (Session.set_CurrentLanguage lang s)
  = Session.set_CurrentLanguage lang <$> Session.AddMessage role content s.
Proof.
  unfold Session.AddMessage. simpl.
  destruct (Session.trim _ _) as [ctx|]; simpl; [|done].
  destruct (String.eqb role "user"); [done|].
  by destruct (String.eqb role "assistant").
Qed.

(** X13. The language of a session plays no part in a turn: after
    [SetLanguage] the procedures return the same values, make the same
    calls with the same arguments and leave the same session, up to the
    language itself. *)
Theorem pipeline_ignores_language o audio (onChunk : Sink Env) w (lang : Language) :
  let relabel {A} (rw : A * World Env) : A * World Env :=
    (rw.1, mkWorld (Session.set_CurrentLanguage lang (w_session rw.2))
                   (w_env rw.2) (w_trace rw.2)) in
  bind (SetLanguage o lang) (λ _, ProcessAudio TrimSpace o audio) w
  = relabel <$> ProcessAudio TrimSpace o audio w
  ∧ bind (SetLanguage o lang) (λ _, ProcessAudioStream TrimSpace o audio onChunk) w
    = relabel <$> ProcessAudioStream TrimSpace o audio onChunk w.
Proof.
  intros relabel. subst relabel.
  unfold SetLanguage, modifySession. run_pipeline.
  destruct (stt_Transcribe _ _ _) as [[transcript [e|]] env1]; simpl; [done|].
  destruct (String.eqb _ _); simpl; [done|].
  rewrite AddMessage_language.
  destruct (Session.AddMessage "user" _ _) as [s1|]; simpl; [|done].
  destruct (llm_Complete _ _ _) as [[response [e|]] env2]; simpl; [done|].
  rewrite AddMessage_language.
  destruct (Session.AddMessage "assistant" _ _) as [s2|]; simpl; [|done].
  destruct (tts_Synthesize _ _ _ _) as [[audioBytes [e|]] env3];
    destruct (tts_StreamSynthesize _ _ _ _ _) as [[e'|] env3']; done.
Qed.

(** X14. [SetVoice] decides the voice of the next turn: whichever way the
    procedures end after it, every synthesis call they have added to the
    trace was made with the voice that was set. *)
Theorem SetVoice_decides_synthesis_voice o audio (onChunk : Sink Env) w (voice : Voice)
        r w' r2 w2 :
  bind (SetVoice o voice) (λ _, ProcessAudio TrimSpace o audio) w = Some (r, w') →
  bind (SetVoice o voice) (λ _, ProcessAudioStream TrimSpace o audio onChunk) w
    = Some (r2, w2) →
  ∃ new new2,
    w_trace w' = w_trace w ++ new
    ∧ w_trace w2 = w_trace w ++ new2
    ∧ (∀ text v, EvSynthesize text v ∈ new → v = voice)
    ∧ (∀ text v, EvStreamSynthesize text v ∈ new2 → v = voice)
    ∧ (∀ text v, (EvStreamSynthesize text v ∉ new) ∧ (EvSynthesize text v ∉ new2)).
Proof.
  unfold SetVoice, modifySession. run_pipeline.
  destruct (stt_Transcribe _ _ _) as [[transcript [e|]] env1]; simpl.
  { intros [= <- <-] [= <- <-]. simpl. do 2 eexists. do 2 (split; [done|]).
    repeat split; intros; members. }
  destruct (String.eqb _ _); simpl.
  { intros [= <- <-] [= <- <-]. simpl. do 2 eexists. do 2 (split; [done|]).
    repeat split; intros; members. }
  destruct (Session.AddMessage "user" _ _) as [s1|] eqn:Hadd; simpl; [|done].
  destruct (AddMessage_fields _ _ _ _ Hadd) as (_ & _ & Hv1 & _). simpl in Hv1.
  destruct (llm_Complete _ _ _) as [[response [e|]] env2]; simpl.
  { intros [= <- <-] [= <- <-]. simpl. rewrite <- !app_assoc. simpl.
    do 2 eexists. do 2 (split; [done|]).
    repeat split; intros; members. }
  destruct (Session.AddMessage "assistant" _ _) as [s2|] eqn:Hadd2; simpl; [|done].
  destruct (AddMessage_fields _ _ _ _ Hadd2) as (_ & _ & Hv2 & _).
  rewrite Hv2, Hv1.
  destruct (tts_Synthesize _ _ _ _) as [[audioBytes [e|]] env3];
    destruct (tts_StreamSynthesize _ _ _ _ _) as [[e'|] env3']; simpl;
    intros [= <- <-] [= <- <-]; simpl; rewrite <- !app_assoc; simpl;
    do 2 eexists; do 2 (split; [done|]);
    repeat split; intros; members.
Qed.

End PipelinePaths.

(** The mocks on each path. *)

Lemma transcription_failure_stops_pipeline_witness :
  let down := Go.errorString "stt unavailable" in
  let o := Orchestrator.New (Mock.STT (Mock.mkMockSTT "partial text" (Some down)))
             (Mock.LLM (Mock.mkMockLLM "unused" None)) (Mock.TTS Mock.workingTTS)
             DefaultConfig in
  let w := Mock.world o in
  let e := Go.Errorf_w "transcription failed: " down in
  let w' := Orchestrator.mkWorld (Orchestrator.w_session w) []
              [Orchestrator.EvTranscribe Mock.testAudio] in
  Orchestrator.ProcessAudio Mock.TrimSpaceASCII o Mock.testAudio w = Some (("", [], Some e), w')
  ∧ Orchestrator.ProcessAudioStream Mock.TrimSpaceASCII o Mock.testAudio Mock.collect w
    = Some (("", Some e), w')
  ∧ Go.Error e = "transcription failed: stt unavailable"
  ∧ Go.Unwrap e = Some down.
Proof.
  intros down o w.
  apply (transcription_failure_stops_pipeline Mock.TrimSpaceASCII o Mock.testAudio
           Mock.collect w "partial text" down []).
  reflexivity.
Defined.

Lemma generation_failure_keeps_user_turn_witness :
  let down := Go.errorString "llm unavailable" in
  let o := Orchestrator.New (Mock.STT (Mock.mkMockSTT "Hello" None))
             (Mock.LLM (Mock.mkMockLLM "partial" (Some down))) (Mock.TTS Mock.workingTTS)
             DefaultConfig in
  let w := Mock.world o in
  let s1 := mkSession "test_user" [mkMessage "user" "Hello"] "Hello" "" 20 VoiceF1 LanguageEn in
  let e := Go.Errorf_w "LLM failed: " down in
  let w' := Orchestrator.mkWorld s1 []
              [Orchestrator.EvTranscribe Mock.testAudio;
               Orchestrator.EvLog "[test_user] Transcribed: Hello";
               Orchestrator.EvComplete [mkMessage "user" "Hello"]] in
  Orchestrator.ProcessAudio Mock.TrimSpaceASCII o Mock.testAudio w
    = Some (("Hello", [], Some e), w')
  ∧ Orchestrator.ProcessAudioStream Mock.TrimSpaceASCII o Mock.testAudio Mock.collect w
    = Some (("Hello", Some e), w')
  ∧ Go.Unwrap e = Some down
  ∧ LastUser s1 = "Hello".
Proof.
  intros down o w s1.
  apply (generation_failure_keeps_user_turn Mock.TrimSpaceASCII o Mock.testAudio
           Mock.collect w "Hello" "partial" down [] [] s1).
  - reflexivity.
  - vm_compute. discriminate.
  - reflexivity.
  - reflexivity.
Defined.

(** [TestProcessAudio]. *)
Lemma ProcessAudio_success_witness :
  let o := Mock.orchestrator 20 Mock.workingTTS in
  let w := Mock.world o in
  let user := mkMessage "user" "Hello, how are you?" in
  let assistant := mkMessage "assistant" "I'm doing great, thanks for asking!" in
  let s2 := mkSession "test_user" [user; assistant] "Hello, how are you?"
                      "I'm doing great, thanks for asking!" 20 VoiceF1 LanguageEn in
  ∃ w',
    Orchestrator.ProcessAudio Mock.TrimSpaceASCII o Mock.testAudio w
      = Some (("Hello, how are you?", [Byte.x01; Byte.x02; Byte.x03; Byte.x04], None), w')
    ∧ Orchestrator.w_session w' = s2
    ∧ Orchestrator.w_env w' = []
    ∧ Orchestrator.providerCalls (Orchestrator.w_trace w')
      = [Orchestrator.EvTranscribe Mock.testAudio; Orchestrator.EvComplete [user];
         Orchestrator.EvSynthesize "I'm doing great, thanks for asking!" VoiceF1]
    ∧ LastUser s2 = "Hello, how are you?"
    ∧ LastAssistant s2 = "I'm doing great, thanks for asking!".
Proof.
  intros o w user assistant s2.
  apply (ProcessAudio_success Mock.TrimSpaceASCII o Mock.testAudio w
           "Hello, how are you?" "I'm doing great, thanks for asking!"
           [Byte.x01; Byte.x02; Byte.x03; Byte.x04] [] [] []
           (mkSession "test_user" [user] "Hello, how are you?" "" 20 VoiceF1 LanguageEn) s2).
  - reflexivity.
  - vm_compute. discriminate.
  - reflexivity.
  - reflexivity.
  - reflexivity.
  - reflexivity.
Defined.

(** [TestProcessAudioStream] with a sink that refuses the chunk. *)
Lemma ProcessAudioStream_outcome_witness :
  let closed := Go.errorString "sink closed" in
  let refuse : Orchestrator.Sink Mock.Chunks := λ _ chunks, (Some closed, chunks) in
  let o := Mock.orchestrator 20 Mock.workingTTS in
  let w := Mock.world o in
  let user := mkMessage "user" "Hello, how are you?" in
  let assistant := mkMessage "assistant" "I'm doing great, thanks for asking!" in
  let s2 := mkSession "test_user" [user; assistant] "Hello, how are you?"
                      "I'm doing great, thanks for asking!" 20 VoiceF1 LanguageEn in
  ∃ w',
    Orchestrator.ProcessAudioStream Mock.TrimSpaceASCII o Mock.testAudio refuse w
      = Some (("Hello, how are you?",
               Some (Go.wrapError "TTS stream failed: sink closed" closed)), w')
    ∧ Orchestrator.w_session w' = s2
    ∧ Orchestrator.w_env w' = []
    ∧ Orchestrator.providerCalls (Orchestrator.w_trace w')
      = [Orchestrator.EvTranscribe Mock.testAudio; Orchestrator.EvComplete [user];
         Orchestrator.EvStreamSynthesize "I'm doing great, thanks for asking!" VoiceF1]
    ∧ (∀ err, Some closed = Some err →
         Go.Unwrap (Go.Errorf_w "TTS stream failed: " err) = Some err).
Proof.
  intros closed refuse o w user assistant s2.
  apply (ProcessAudioStream_outcome Mock.TrimSpaceASCII o Mock.testAudio refuse w
           "Hello, how are you?" "I'm doing great, thanks for asking!" (Some closed)
           [] [] []
           (mkSession "test_user" [user] "Hello, how are you?" "" 20 VoiceF1 LanguageEn) s2).
  - reflexivity.
  - vm_compute. discriminate.
  - reflexivity.
  - reflexivity.
  - reflexivity.
  - reflexivity.
Defined.

Lemma negative_window_panics_pipeline_witness :
  let o := Mock.orchestrator (-1) Mock.workingTTS in
  Orchestrator.ProcessAudio Mock.TrimSpaceASCII o Mock.testAudio (Mock.world o) = None
  ∧ Orchestrator.ProcessAudioStream Mock.TrimSpaceASCII o Mock.testAudio Mock.collect
      (Mock.world o) = None.
Proof.
  intros o.
  apply (negative_window_panics_pipeline Mock.TrimSpaceASCII o Mock.testAudio Mock.collect
           (Mock.world o) "Hello, how are you?" []).
  - vm_compute. split; [discriminate | reflexivity].
  - vm_compute. reflexivity.
  - reflexivity.
  - vm_compute. discriminate.
Defined.

Lemma SetVoice_decides_synthesis_voice_witness :
  let o := Mock.orchestrator 20 Mock.workingTTS in
  let w := Mock.world o in
  ∃ new new2 : list Orchestrator.Event,
    Orchestrator.EvSynthesize "I'm doing great, thanks for asking!" "M1" ∈ new
    ∧ Orchestrator.EvStreamSynthesize "I'm doing great, thanks for asking!" "M1" ∈ new2
    ∧ (∀ text v, Orchestrator.EvSynthesize text v ∈ new → v = "M1")
    ∧ (∀ text v, Orchestrator.EvStreamSynthesize text v ∈ new2 → v = "M1")
    ∧ (∀ text v, (Orchestrator.EvStreamSynthesize text v ∉ new)
                 ∧ (Orchestrator.EvSynthesize text v ∉ new2)).
Proof.
  intros o w.
  pose (batch := Orchestrator.bind (Orchestrator.SetVoice o "M1")
                   (λ _, Orchestrator.ProcessAudio Mock.TrimSpaceASCII o Mock.testAudio) w).
  pose (stream := Orchestrator.bind (Orchestrator.SetVoice o "M1")
                    (λ _, Orchestrator.ProcessAudioStream Mock.TrimSpaceASCII o Mock.testAudio
                            Mock.collect) w).
  assert (Hbatch : ∃ r w', batch = Some (r, w')
                           ∧ Orchestrator.EvSynthesize "I'm doing great, thanks for asking!" "M1"
                             ∈ Orchestrator.w_trace w').
  { do 2 eexists. split; [vm_compute; reflexivity|]. simpl. rewrite !elem_of_cons. auto 10. }
  assert (Hstream : ∃ r w', stream = Some (r, w')
                            ∧ Orchestrator.EvStreamSynthesize
                                "I'm doing great, thanks for asking!" "M1"
                              ∈ Orchestrator.w_trace w').
  { do 2 eexists. split; [vm_compute; reflexivity|]. simpl. rewrite !elem_of_cons. auto 10. }
  destruct Hbatch as (r & w' & Hbatch & Hin). destruct Hstream as (r2 & w2 & Hstream & Hin2).
  destruct (SetVoice_decides_synthesis_voice Mock.TrimSpaceASCII o Mock.testAudio
              Mock.collect w "M1" r w' r2 w2 Hbatch Hstream)
    as (new & new2 & Hnew & Hnew2 & Hrest).
  exists new, new2. simpl in Hnew, Hnew2. rewrite Hnew in Hin. rewrite Hnew2 in Hin2.
  split; [done|]. split; [done|]. exact Hrest.
Defined.

(** ** The detector as a state machine *)

Section DetectorMore.
Import VAD.
#[local] Open Scope float_scope.

Ltac into_Process chunk v :=
  unfold Process, above, effectiveThreshold in *;
  let v1 := fresh "v1" in
  let eff := fresh "eff" in
  let Hf := fresh "Hf" in
  pose proof (adapt_fields (calculateRMS chunk) v) as Hf;
  destruct (adapt (calculateRMS chunk) v) as [v1 eff];
  simpl in *;
  destruct Hf as (Hthr & Hlim & Hsp & Hst & Hmode & Halpha & Hcf & Hmc & Hrms).

(** X15. What a call returns tells what it did. No event: the frame was
    above the threshold and the speaking flag is as before. SpeechStart: the
    frame was above the threshold and the flag went from false to true.
    SpeechEnd: the frame was at or below the threshold and the flag went
    from true to false. Silence: the frame was at or below the threshold and
    the flag is as before. Every event carries the clock reading of the call
    in milliseconds, and the error is nil. *)
Theorem Process_event_and_flag (now : Time.Time) (chunk : list Byte.byte) (v : RMSVAD) :
  let r := Process now chunk v in
  r.1.2 = None
  ∧ match r.1.1 with
    | None => above chunk v = true ∧ isSpeaking r.2 = isSpeaking v
    | Some e =>
        Timestamp e = Time.UnixMilli now
        ∧ match Type_ e with
          | VADSpeechStart =>
              above chunk v = true ∧ isSpeaking v = false ∧ isSpeaking r.2 = true
          | VADSpeechEnd =>
              above chunk v = false ∧ isSpeaking v = true ∧ isSpeaking r.2 = false
          | VADSilence =>
              above chunk v = false ∧ isSpeaking r.2 = isSpeaking v
          end
    end.
Proof.
  intros r. subst r. into_Process chunk v.
  destruct (eff <? calculateRMS chunk); simpl.
  - rewrite Hsp. destruct (isSpeaking v); simpl; [by rewrite ?Hsp|].
    destruct (_ >=? _)%Z; simpl; by rewrite ?Hsp.
  - rewrite Hsp. destruct (isSpeaking v); simpl; [|by rewrite ?Hsp].
    destruct (Time.IsZero (silenceStart v1)); simpl;
      destruct (_ >=? _)%Z; simpl; by rewrite ?Hsp.
Qed.

(** [Process] keeps the settings and leaves the noise floor as [adapt] set
    it. *)
Lemma Process_settings (now : Time.Time) (chunk : list Byte.byte) (v : RMSVAD) :
  let v' := (Process now chunk v).2 in
  threshold v' = threshold v ∧ silenceLimit v' = silenceLimit v
  ∧ adaptiveMode v' = adaptiveMode v ∧ alpha v' = alpha v
  ∧ minConfirmed v' = minConfirmed v
  ∧ noiseFloor v' = noiseFloor (adapt (calculateRMS chunk) v).1
  ∧ lastRMS v' = calculateRMS chunk.
Proof.
  intros v'. subst v'. into_Process chunk v.
  repeat match goal with
         | |- context [if ?b then _ else _] => destruct b; simpl
         end; done.
Qed.

Lemma apply_settings (c : VADStore.Call) (v : RMSVAD) :
  VADStore.isSetter c = false →
  let v' := VADStore.apply c v in
  threshold v' = threshold v ∧ silenceLimit v' = silenceLimit v
  ∧ adaptiveMode v' = adaptiveMode v ∧ alpha v' = alpha v
  ∧ minConfirmed v' = minConfirmed v.
Proof.
  destruct c as [| | |now chunk|]; try done; intros _; simpl.
  pose proof (Process_settings now chunk v) as H. simpl in H. tauto.
Qed.

(** X17. Frames and resets never change how a detector is set up: after
    any sequence of [Process] and [Reset] calls the threshold, the silence
    limit, the adaptive mode, the smoothing coefficient and the
    confirmation count are what they were. *)
Theorem settings_survive_frames (cs : list VADStore.Call) :
  ∀ v : RMSVAD,
    Forall (λ c, VADStore.isSetter c = false) cs →
    let v' := VADStore.applies cs v in
    threshold v' = threshold v ∧ silenceLimit v' = silenceLimit v
    ∧ adaptiveMode v' = adaptiveMode v ∧ alpha v' = alpha v
    ∧ minConfirmed v' = minConfirmed v.
Proof.
  induction cs as [|c cs IH]; intros v Hall; [done|].
  inversion_clear Hall as [|? ? Hc Hcs].
  destruct (apply_settings c v Hc) as (H1 & H2 & H3 & H4 & H5).
  destruct (IH (VADStore.apply c v) Hcs) as (H1' & H2' & H3' & H4' & H5').
  simpl. unfold VADStore.applies in *. simpl.
  repeat split; congruence.
Qed.

(** A detector with a threshold of 0.5 after a frame, a reset and a frame. *)
Lemma settings_survive_frames_witness :
  let now := Time.mkTime 63900000000000000000 (Some 1%Z) in
  let v := VAD.SetMinConfirmed 3 (NewRMSVAD 0.5 Time.Second) in
  let v' := VADStore.applies
              [VADStore.CallProcess now [Byte.x00; Byte.x40]; VADStore.CallReset;
               VADStore.CallProcess now []] v in
  threshold v' = 0.5 ∧ silenceLimit v' = Time.Second
  ∧ adaptiveMode v' = true ∧ alpha v' = 0.05 ∧ minConfirmed v' = 3%Z.
Proof.
  intros now v.
  apply (settings_survive_frames
           [VADStore.CallProcess now [Byte.x00; Byte.x40]; VADStore.CallReset;
            VADStore.CallProcess now []] v).
  repeat constructor.
Defined.

Lemma apply_static (c : VADStore.Call) (v : RMSVAD) :
  VADStore.isSetter c = false → adaptiveMode v = false →
  noiseFloor (VADStore.apply c v) = noiseFloor v.
Proof.
  destruct c as [| | |now chunk|]; try done; intros _ Hmode; simpl.
  destruct (Process_settings now chunk v) as (_ & _ & _ & _ & _ & Hnf & _).
  rewrite Hnf. unfold adapt. simpl. by rewrite Hmode.
Qed.

(** X18. A detector whose adaptive mode is off never adapts: over any
    sequence of [Process] and [Reset] calls its noise floor stays what it
    was, and every frame is classified against the configured threshold
    itself, with no cap. A clone is such a detector, whatever the mode of
    the detector it was cloned from. *)
Theorem static_detector_never_adapts (cs : list VADStore.Call) :
  ∀ v : RMSVAD,
    adaptiveMode v = false →
    Forall (λ c, VADStore.isSetter c = false) cs →
    let v' := VADStore.applies cs v in
    adaptiveMode v' = false
    ∧ noiseFloor v' = noiseFloor v
    ∧ ∀ chunk, effectiveThreshold chunk v' = threshold v.
Proof.
  induction cs as [|c cs IH]; intros v Hmode Hall.
  - simpl. repeat split; try done.
    intros chunk. unfold effectiveThreshold, adapt. simpl. by rewrite Hmode.
  - inversion_clear Hall as [|? ? Hc Hcs].
    destruct (apply_settings c v Hc) as (Hthr & _ & Hm & _).
    pose proof (apply_static c v Hc Hmode) as Hnf.
    destruct (IH (VADStore.apply c v)) as (Hm' & Hnf' & Heff); [congruence | done |].
    simpl. unfold VADStore.applies in *. simpl.
    split; [congruence|]. split; [congruence|].
    intros chunk. by rewrite Heff.
Qed.

(** The clone of an adaptive detector with a threshold of 0.5. *)
Lemma static_detector_never_adapts_witness :
  let now := Time.mkTime 63900000000000000000 (Some 1%Z) in
  let v := Clone (NewRMSVAD 0.5 Time.Second) in
  let v' := VADStore.applies
              [VADStore.CallProcess now [Byte.x00; Byte.x00];
               VADStore.CallProcess now [Byte.x00; Byte.x40]] v in
  adaptiveMode v' = false
  ∧ noiseFloor v' = 0
  ∧ ∀ chunk, effectiveThreshold chunk v' = 0.5.
Proof.
  intros now v.
  apply (static_detector_never_adapts
           [VADStore.CallProcess now [Byte.x00; Byte.x00];
            VADStore.CallProcess now [Byte.x00; Byte.x40]] v).
  - reflexivity.
  - repeat constructor.
Defined.

(** X19. In adaptive mode the noise floor follows the quiet: a frame whose
    energy is below the floor makes its energy the new floor at once,
    speaking or not; and while the detector is speaking the floor never
    goes up. *)
Theorem noise_floor_tracks_quiet (now : Time.Time) (chunk : list Byte.byte) (v : RMSVAD) :
  adaptiveMode v = true →
  let v' := (Process now chunk v).2 in
  ((calculateRMS chunk <? noiseFloor v) = true → noiseFloor v' = calculateRMS chunk)
  ∧ (isSpeaking v = true → (noiseFloor v <? noiseFloor v') = false)
  ∧ (isSpeaking v = true → (calculateRMS chunk <? noiseFloor v) = false →
     noiseFloor v' = noiseFloor v).
Proof.
  intros Hmode v'. subst v'.
  destruct (Process_settings now chunk v) as (_ & _ & _ & _ & _ & Hnf & _).
  rewrite Hnf. unfold adapt, trackNoiseFloor. simpl. rewrite Hmode. simpl.
  destruct (calculateRMS chunk <? noiseFloor v) eqn:Hlow; simpl.
  - repeat split; try done. intros _. by apply ltb_asym.
  - repeat split; try done; intros ->; simpl; try done. apply ltb_irrefl.
Qed.

(** A speaking detector with a floor of 0.01 hearing digital silence. *)
Lemma noise_floor_tracks_quiet_witness :
  let now := Time.mkTime 63900000000000000000 (Some 1%Z) in
  let v := mkRMSVAD 0.02 Time.Second true Time.zero true 0.01 0.05 9%Z 7%Z 0.25 in
  let v' := (Process now [Byte.x00; Byte.x00] v).2 in
  ((calculateRMS [Byte.x00; Byte.x00] <? noiseFloor v) = true → noiseFloor v' = 0)
  ∧ (isSpeaking v = true → (noiseFloor v <? noiseFloor v') = false)
  ∧ (isSpeaking v = true → (calculateRMS [Byte.x00; Byte.x00] <? noiseFloor v) = false →
     noiseFloor v' = noiseFloor v).
Proof.
  intros now v.
  apply (noise_floor_tracks_quiet now [Byte.x00; Byte.x00] v). reflexivity.
Defined.

(** The silence timer is unset while the detector is not speaking. *)
Lemma apply_timer (c : VADStore.Call) (v : RMSVAD) :
  (isSpeaking v = false → silenceStart v = Time.zero) →
  isSpeaking (VADStore.apply c v) = false →
  silenceStart (VADStore.apply c v) = Time.zero.
Proof.
  destruct c as [b|n|t|now chunk|]; simpl; try done.
  intros Hinv. into_Process chunk v.
  rewrite <- Hsp, <- Hst in Hinv.
  destruct (eff <? calculateRMS chunk); simpl.
  - destruct (isSpeaking v1) eqn:Hs; simpl; [done|].
    destruct (_ >=? _)%Z; simpl; [done|]. intros _. by apply Hinv.
  - destruct (isSpeaking v1) eqn:Hs; simpl; [|intros _; by apply Hinv].
    destruct (Time.IsZero (silenceStart v1)); simpl;
      destruct (_ >=? _)%Z; simpl; try done; congruence.
Qed.

(** X20. Whatever is called on a detector made by [NewRMSVAD] or by
    [Clone], in whatever order (frames, resets, setters), the silence timer
    is unset whenever the detector is not speaking. *)
Theorem timer_unset_when_not_speaking (cs : list VADStore.Call) (v0 : RMSVAD) :
  isSpeaking v0 = false →
  silenceStart v0 = Time.zero →
  let v := VADStore.applies cs v0 in
  isSpeaking v = false → silenceStart v = Time.zero.
Proof.
  intros Hs0 Ht0 v. subst v.
  assert (Hinv : isSpeaking v0 = false → silenceStart v0 = Time.zero) by done.
  clear Hs0 Ht0. revert v0 Hinv.
  induction cs as [|c cs IH]; intros v0 Hinv; [done|].
  simpl. apply IH. by apply apply_timer.
Qed.

(** Seven loud frames, a silent one that starts the timer, and a silent one
    two seconds later that ends the speech. *)
Lemma timer_unset_when_not_speaking_witness :
  let at_ (ms : Z) (chunk : list Byte.byte) : VADStore.Call :=
    VADStore.CallProcess
      (Time.mkTime (63900000000000000000 + ms * 1000000) (Some (ms * 1000000)%Z)) chunk in
  let loud := [Byte.x00; Byte.x40] in
  let silent := [Byte.x00; Byte.x00] in
  let cs := [at_ 10%Z loud; at_ 20%Z loud; at_ 30%Z loud; at_ 40%Z loud; at_ 50%Z loud;
             at_ 60%Z loud; at_ 70%Z loud; at_ 80%Z silent; at_ 2080%Z silent]%Z in
  let v := VADStore.applies cs (NewRMSVAD 0.02 Time.Second) in
  isSpeaking (VADStore.applies (take 8 cs) (NewRMSVAD 0.02 Time.Second)) = true
  ∧ silenceStart v = Time.zero.
Proof.
  intros at_ loud silent cs v. split; [reflexivity|].
  apply (timer_unset_when_not_speaking cs (NewRMSVAD 0.02 Time.Second));
    reflexivity.
Defined.

(** A frame at or below the threshold while speaking: the timer starts if
    it was unset, and the call is SpeechEnd exactly when the time since the
    start has reached the silence limit. *)
Lemma Process_hangover (now : Time.Time) (chunk : list Byte.byte) (v : RMSVAD) :
  above chunk v = false → isSpeaking v = true →
  let start := if Time.IsZero (silenceStart v) then now else silenceStart v in
  let over := (Time.Sub now start >=? silenceLimit v)%Z in
  ∃ v', Process now chunk v
        = ((if over then emitted VADSpeechEnd now else emitted VADSilence now), v')
        ∧ isSpeaking v' = negb over
        ∧ silenceStart v' = (if over then Time.zero else start)
        ∧ silenceLimit v' = silenceLimit v
        ∧ consecutiveFrames v' = 0%Z
        ∧ minConfirmed v' = minConfirmed v.
Proof.
  intros Hab Hs start over. subst start over. into_Process chunk v.
  rewrite Hab. simpl. rewrite Hsp, Hs. simpl. rewrite ?Hst, ?Hlim.
  destruct (Time.IsZero (silenceStart v)); simpl; rewrite ?Hst, ?Hlim;
    destruct (_ >=? _)%Z; simpl; eexists; (split; [done|]); simpl;
    by rewrite ?Hsp, ?Hs, ?Hst, ?Hlim, ?Hmc.
Qed.

(** The timer running since [t0]: Silence until the limit is reached. *)
Lemma run_hangover (t0 now : Time.Time) (chunk : list Byte.byte) (post : list Frame)
      (pre : list Frame) :
  ∀ v, isSpeaking v = true → silenceStart v = t0 → Time.IsZero t0 = false →
       all_above false (pre ++ (now, chunk) :: post) v →
       Forall (λ f, (Time.Sub f.1 t0 < silenceLimit v)%Z) pre →
       (silenceLimit v ≤ Time.Sub now t0)%Z →
       (run (pre ++ (now, chunk) :: post) v).1
       = map (λ f, emitted VADSilence f.1) pre
         ++ emitted VADSpeechEnd now :: map (λ f, emitted VADSilence f.1) post.
Proof.
  induction pre as [|[t c] pre IH]; intros v Hs Ht Hnz Hall Hpre Hend;
    destruct Hall as [Hab Hrest]; simpl.
  - destruct (Process_hangover now chunk v Hab Hs) as (v' & HP & Hs' & _).
    rewrite Ht, Hnz in HP, Hs'.
    rewrite (proj2 (Z.geb_le _ _)) in HP, Hs' by done.
    rewrite HP in *. simpl in *.
    pose proof (run_below post v' Hs' Hrest) as Hrun.
    destruct (run post v') as [rs v'']. simpl in *. by rewrite Hrun.
  - inversion_clear Hpre as [|? ? Ht0 Hpre'].
    destruct (Process_hangover t c v Hab Hs) as (v' & HP & Hs' & Hst' & Hlim' & _).
    rewrite Ht, Hnz in HP, Hs', Hst'. simpl in Ht0.
    assert (Hlt : (Time.Sub t t0 >=? silenceLimit v)%Z = false).
    { rewrite Z.geb_leb. apply Z.leb_gt. lia. }
    rewrite Hlt in HP, Hs', Hst'.
    rewrite HP in *. simpl in *.
    specialize (IH v' Hs' Hst' Hnz Hrest).
    rewrite Hlim' in IH. specialize (IH Hpre' Hend).
    destruct (run _ v') as [rs v'']. simpl in *. by rewrite IH.
Qed.

(** X16. The end of speech is decided by the clock. On a speaking
    detector whose timer is unset, over frames at or below the threshold the
    timer starts with the first of them; every call returns Silence while
    the time since that start is below the silence limit, the first call at
    which it has reached the limit returns SpeechEnd, and the calls after it
    return Silence again: one SpeechEnd, however many frames the silence
    lasts. With a limit of zero or less the first silent frame ends the
    speech. *)
Theorem SpeechEnd_after_silence_limit (v : RMSVAD) (pre post : list Frame)
        (now : Time.Time) (chunk : list Byte.byte) :
  let frames := pre ++ (now, chunk) :: post in
  let t0 := hd now (map fst pre) in
  isSpeaking v = true →
  silenceStart v = Time.zero →
  Time.IsZero t0 = false →
  all_above false frames v →
  Forall (λ f, (Time.Sub f.1 t0 < silenceLimit v)%Z) pre →
  (silenceLimit v ≤ Time.Sub now t0)%Z →
  (run frames v).1
  = map (λ f, emitted VADSilence f.1) pre
    ++ emitted VADSpeechEnd now :: map (λ f, emitted VADSilence f.1) post.
Proof.
  intros frames t0 Hs Ht Hnz Hall Hpre Hend. subst frames t0.
  destruct pre as [|[t c] pre]; simpl in *; destruct Hall as [Hab Hrest].
  - destruct (Process_hangover now chunk v Hab Hs) as (v' & HP & Hs' & _).
    rewrite Ht in HP, Hs'. simpl in HP, Hs'.
    rewrite (proj2 (Z.geb_le _ _)) in HP, Hs' by done.
    rewrite HP in *. simpl in *.
    pose proof (run_below post v' Hs' Hrest) as Hrun.
    destruct (run post v') as [rs v'']. simpl in *. by rewrite Hrun.
  - inversion_clear Hpre as [|? ? Ht0 Hpre'].
    destruct (Process_hangover t c v Hab Hs) as (v' & HP & Hs' & Hst' & Hlim' & _).
    rewrite Ht in HP, Hs', Hst'. simpl in HP, Hs', Hst', Ht0.
    assert (Hlt : (Time.Sub t t >=? silenceLimit v)%Z = false).
    { rewrite Z.geb_leb. apply Z.leb_gt. lia. }
    rewrite Hlt in HP, Hs', Hst'.
    rewrite HP in *. simpl in *.
    pose proof (run_hangover t now chunk post pre v' Hs' Hst' Hnz Hrest) as Hrun.
    rewrite Hlim' in Hrun. specialize (Hrun Hpre' Hend).
    destruct (run _ v') as [rs v'']. simpl in *. by rewrite Hrun.
Qed.

(** A detector that has just confirmed speech, silent frames 80 ms and
    500 ms later, then one at 1080 ms, a second after the first: SpeechEnd. *)
Lemma SpeechEnd_after_silence_limit_witness :
  let at_ (ms : Z) (chunk : list Byte.byte) : Frame :=
    (Time.mkTime (63900000000000000000 + ms * 1000000) (Some (ms * 1000000)%Z), chunk) in
  let loud := [Byte.x00; Byte.x40] in
  let silent := [Byte.x00; Byte.x00] in
  let v := (run (map (λ ms, at_ ms loud) [10; 20; 30; 40; 50; 60; 70]%Z)
                (NewRMSVAD 0.02 Time.Second)).2 in
  let pre := [at_ 80%Z silent; at_ 500%Z silent] in
  let post := [at_ 1090%Z silent] in
  (run (pre ++ at_ 1080%Z silent :: post) v).1
  = [emitted VADSilence (at_ 80%Z silent).1; emitted VADSilence (at_ 500%Z silent).1;
     emitted VADSpeechEnd (at_ 1080%Z silent).1; emitted VADSilence (at_ 1090%Z silent).1].
Proof.
  intros at_ loud silent v pre post.
  apply (SpeechEnd_after_silence_limit v pre post (at_ 1080%Z silent).1 silent).
  - reflexivity.
  - reflexivity.
  - reflexivity.
  - vm_compute. tauto.
  - repeat constructor.
  - vm_compute. discriminate.
Defined.

(** X22. [Reset] starts the confirmation over: whatever the detector was
    doing, after [Reset] a run of frames above the threshold brings no event
    for [minConfirmed - 1] calls, SpeechStart on the next, and no event
    afterwards. *)
Theorem Reset_restarts_confirmation (v : RMSVAD) (frames : list Frame) :
  (1 ≤ minConfirmed v ≤ Go.maxInt64)%Z →
  let n := Z.to_nat (minConfirmed v) in
  all_above true frames (Reset v) →
  (n ≤ length frames)%nat →
  ∃ now chunk,
    frames !! (n - 1)%nat = Some (now, chunk)
    ∧ (run frames (Reset v)).1
      = replicate (n - 1) quiet ++ [emitted VADSpeechStart now]
        ++ replicate (length frames - n) quiet.
Proof.
  intros Hmin n Hall Hlen.
  destruct (run_confirming (n - 1) frames (Reset v)) as (now & chunk & Hlook & Hrun);
    try done; simpl; try lia.
  exists now, chunk. split; [done|].
  by replace (S (n - 1)) with n in Hrun by lia.
Qed.

(** A speaking detector, six frames into a count of three, reset. *)
Lemma Reset_restarts_confirmation_witness :
  let v := mkRMSVAD 0.02 Time.Second true Time.zero true 0.005 0.05 6%Z 3%Z 0.5 in
  let at_ (ms : Z) : Frame :=
    (Time.mkTime (63900000000000000000 + ms * 1000000) (Some (ms * 1000000)%Z),
     [Byte.x00; Byte.x40]) in
  let frames := [at_ 10%Z; at_ 20%Z; at_ 30%Z; at_ 40%Z]%Z in
  ∃ now chunk,
    frames !! 2%nat = Some (now, chunk)
    ∧ (run frames (Reset v)).1
      = replicate 2 quiet ++ [emitted VADSpeechStart now] ++ replicate 1 quiet.
Proof.
  intros v at_ frames.
  apply (Reset_restarts_confirmation v frames).
  - vm_compute. split; discriminate.
  - vm_compute. tauto.
  - vm_compute. lia.
Defined.

(** Frames above the threshold that do not reach the confirmation count. *)
Lemma run_pending (burst : list Frame) (tail : list Frame) :
  ∀ v, isSpeaking v = false →
       (0 ≤ consecutiveFrames v)%Z →
       (consecutiveFrames v + Z.of_nat (length burst) < minConfirmed v)%Z →
       (minConfirmed v ≤ Go.maxInt64)%Z →
       all_above true burst v →
       let v' := (run burst v).2 in
       (run (burst ++ tail) v).1 = replicate (length burst) quiet ++ (run tail v').1
       ∧ (run (burst ++ tail) v).2 = (run tail v').2
       ∧ isSpeaking v' = false ∧ minConfirmed v' = minConfirmed v.
Proof.
  induction burst as [|[now chunk] burst IH]; intros v Hns Hc0 Hc Hmax Hall; simpl.
  - by destruct (run tail v).
  - destruct Hall as [Hab Hrest]. simpl in Hc.
    destruct (Process_confirming now chunk v Hab Hns) as (v1 & HP & Hsp1 & Hc1 & Hm1).
    rewrite wrap64_small in * by (unfold Go.minInt64, Go.maxInt64 in *; lia).
    assert (Hlt : (consecutiveFrames v + 1 >=? minConfirmed v)%Z = false).
    { rewrite Z.geb_leb. apply Z.leb_gt. lia. }
    rewrite Hlt in *. rewrite HP in *. simpl in *.
    destruct (IH v1) as (Hev & Hst & Hns' & Hm'); try done; try lia.
    destruct (run (burst ++ tail) v1) as [rs1 v2].
    destruct (run burst v1) as [rs2 v3]. simpl in *.
    rewrite Hev, Hst. repeat split; try done. congruence.
Qed.

(** X23. A burst shorter than the confirmation count is filtered out. On a
    detector that is not speaking and has counted nothing, fewer than
    [minConfirmed] frames above the threshold followed by one frame at or
    below it bring no event and then Silence, and leave the detector not
    speaking with its counter at zero: the next burst starts from nothing. *)
Theorem short_burst_is_filtered (v : RMSVAD) (burst : list Frame)
        (now : Time.Time) (chunk : list Byte.byte) :
  isSpeaking v = false →
  consecutiveFrames v = 0%Z →
  (Z.of_nat (length burst) < minConfirmed v ≤ Go.maxInt64)%Z →
  all_above true burst v →
  above chunk (run burst v).2 = false →
  let r := run (burst ++ [(now, chunk)]) v in
  r.1 = replicate (length burst) quiet ++ [emitted VADSilence now]
  ∧ isSpeaking r.2 = false
  ∧ consecutiveFrames r.2 = 0%Z
  ∧ minConfirmed r.2 = minConfirmed v.
Proof.
  intros Hns Hc Hmin Hall Hbelow r. subst r.
  destruct (run_pending burst [(now, chunk)] v) as (Hev & Hst & Hns' & Hm'); try done; try lia.
  rewrite Hev, Hst. clear Hev Hst. simpl.
  set (v' := (run burst v).2) in *.
  into_Process chunk v'. rewrite Hbelow. simpl. rewrite Hsp, Hns'. simpl.
  repeat split; try done; try congruence.
Qed.

(** Six loud frames against a count of seven, then digital silence. *)
Lemma short_burst_is_filtered_witness :
  let v := NewRMSVAD 0.02 Time.Second in
  let at_ (ms : Z) (chunk : list Byte.byte) : Frame :=
    (Time.mkTime (63900000000000000000 + ms * 1000000) (Some (ms * 1000000)%Z), chunk) in
  let burst := map (λ ms, at_ ms [Byte.x00; Byte.x40]) [10; 20; 30; 40; 50; 60]%Z in
  let r := run (burst ++ [at_ 70%Z [Byte.x00; Byte.x00]]) v in
  r.1 = replicate 6 quiet ++ [emitted VADSilence (at_ 70%Z []).1]
  ∧ isSpeaking r.2 = false
  ∧ consecutiveFrames r.2 = 0%Z
  ∧ minConfirmed r.2 = 7%Z.
Proof.
  intros v at_ burst.
  apply (short_burst_is_filtered v burst (at_ 70%Z []).1 [Byte.x00; Byte.x00]).
  - reflexivity.
  - reflexivity.
  - vm_compute. split; [reflexivity | discriminate].
  - vm_compute. tauto.
  - reflexivity.
Defined.

Lemma wrap16_small (z : Z) : (-32768 ≤ z ≤ 32767)%Z → Go.wrap16 z = z.
Proof.
  unfold Go.wrap16, Go.wrap. intros H. change (2 ^ (16 - 1))%Z with 32768%Z.
  change (2 ^ 16)%Z with 65536%Z. rewrite Z.mod_small; lia.
Qed.

Lemma wrap16_high (z : Z) : (32767 < z < 65536)%Z → Go.wrap16 z = (z - 65536)%Z.
Proof.
  unfold Go.wrap16, Go.wrap. intros H. change (2 ^ (16 - 1))%Z with 32768%Z.
  change (2 ^ 16)%Z with 65536%Z.
  replace (z + 32768)%Z with ((z - 32768) + 1 * 65536)%Z by lia.
  rewrite Z.mod_add by lia. rewrite Z.mod_small; lia.
Qed.

(** A byte or-ed with a multiple of 256 is added to it. *)
Lemma lor_low_byte (a k : Z) : (0 ≤ a < 256)%Z → Z.lor a (256 * k) = (a + 256 * k)%Z.
Proof.
  intros Ha.
  assert (Hdisjoint : Z.land a (256 * k) = 0%Z).
  { apply Z.bits_inj'. intros n Hn. rewrite Z.land_spec, Z.bits_0.
    destruct (Z.ltb_spec n 8) as [Hlow|Hhigh].
    - replace (256 * k)%Z with (k * 2 ^ 8)%Z by lia.
      rewrite Z.mul_pow2_bits_low by lia. apply andb_false_r.
    - rewrite <- (Z.mod_small a (2 ^ 8)) by lia.
      rewrite Z.mod_pow2_bits_high by lia. done. }
  by rewrite <- Z.lxor_lor, <- Z.add_nocarry_lxor.
Qed.

Lemma byte_val_range (b : Byte.byte) : (0 ≤ Go.byte_val b < 256)%Z.
Proof. unfold Go.byte_val. pose proof (Byte.to_N_bounded b). lia. Qed.

(** X21. A sample is the 16-bit two's complement number whose low byte
    comes first: [sample lo hi] is [lo + 256 * hi] wrapped to sixteen bits,
    between -32768 and 32767. *)
Theorem sample_little_endian (lo hi : Byte.byte) :
  sample lo hi = Go.wrap16 (Go.byte_val lo + 256 * Go.byte_val hi)
  ∧ (-32768 ≤ sample lo hi ≤ 32767)%Z.
Proof.
  unfold sample.
  pose proof (byte_val_range lo) as Hlo. pose proof (byte_val_range hi) as Hhi.
  set (a := Go.byte_val lo) in *. set (h := Go.byte_val hi) in *.
  rewrite Z.shiftl_mul_pow2 by lia. change (2 ^ 8)%Z with 256%Z.
  destruct (decide (h < 128)%Z) as [Hpos|Hneg].
  - rewrite (wrap16_small (h * 256)), (wrap16_small (a + 256 * h)) by lia.
    replace (h * 256)%Z with (256 * h)%Z by lia.
    rewrite lor_low_byte by done. lia.
  - rewrite (wrap16_high (h * 256)), (wrap16_high (a + 256 * h)) by lia.
    replace (h * 256 - 65536)%Z with (256 * (h - 256))%Z by lia.
    rewrite lor_low_byte by done. lia.
Qed.

End DetectorMore.

(** ** Events in sequence, the window across turns, the mock sink *)

Section EventSequences.
Import VAD.
#[local] Open Scope float_scope.

(** One call: the flag afterwards is the one its return value tells, and a
    start or an end comes only from the opposite state. *)
Lemma Process_heard (now : Time.Time) (chunk : list Byte.byte) (v : RMSVAD) :
  let r := Process now chunk v in
  isSpeaking r.2 = heard r.1 (isSpeaking v)
  ∧ alternating [r.1] (isSpeaking v) = true
  ∧ lastRMS r.2 = calculateRMS chunk.
Proof.
  intros r. subst r. unfold Process.
  pose proof (adapt_fields (calculateRMS chunk) v) as Hf.
  destruct (adapt (calculateRMS chunk) v) as [v1 eff]. simpl in Hf.
  destruct Hf as (_ & _ & Hsp & _ & _ & _ & _ & _ & Hrms).
  unfold heard. simpl.
  destruct (eff <? calculateRMS chunk); simpl; rewrite Hsp.
  - destruct (isSpeaking v); simpl; [by rewrite Hsp|].
    destruct (_ >=? _)%Z; simpl; by rewrite ?Hsp.
  - destruct (isSpeaking v) eqn:Hs; simpl; [|by rewrite ?Hsp].
    destruct (Time.IsZero (silenceStart v1)); simpl;
      destruct (_ >=? _)%Z; simpl; by rewrite ?Hsp.
Qed.

Lemma run_snoc (frames : list Frame) (now : Time.Time) (chunk : list Byte.byte) :
  ∀ v, run (frames ++ [(now, chunk)]) v
       = ((run frames v).1 ++ [(Process now chunk (run frames v).2).1],
          (Process now chunk (run frames v).2).2).
Proof.
  induction frames as [|[t c] frames IH]; intros v; simpl.
  - by destruct (Process now chunk v).
  - destruct (Process t c v) as [r v1]. rewrite IH.
    by destruct (run frames v1).
Qed.

(** X24. The events of a detector tell its state. Over any sequence of
    frames, SpeechStart and SpeechEnd take turns (a start is returned only
    when the detector was not speaking, an end only when it was), the
    speaking flag at the end is the one the last of them left (the flag at
    the beginning when there is none), and [LastRMS] is the energy of the
    last frame. *)
Theorem events_tell_the_state (frames : list Frame) :
  ∀ v : RMSVAD,
    alternating (run frames v).1 (isSpeaking v) = true
    ∧ IsSpeaking (run frames v).2 = speakingAfter (run frames v).1 (isSpeaking v)
    ∧ ∀ now chunk, LastRMS (run (frames ++ [(now, chunk)]) v).2 = calculateRMS chunk.
Proof.
  induction frames as [|[t c] frames IH]; intros v.
  - repeat split. intros now chunk. simpl.
    destruct (Process_heard now chunk v) as (_ & _ & Hrms).
    by destruct (Process now chunk v).
  - destruct (Process_heard t c v) as (Hflag & Halt & _).
    simpl in *. destruct (Process t c v) as [r v1]. simpl in *.
    destruct (IH v1) as (IHalt & IHflag & IHrms).
    split; [|split].
    + destruct (run frames v1) as [rs v2]. simpl in *.
      rewrite Hflag in IHalt. rewrite IHalt.
      by rewrite andb_true_r in Halt |- *.
    + destruct (run frames v1) as [rs v2]. simpl in *.
      unfold IsSpeaking, speakingAfter in *. simpl. by rewrite <- Hflag.
    + intros now chunk. specialize (IHrms now chunk).
      by destruct (run (frames ++ [(now, chunk)]) v1).
Qed.

End EventSequences.

Section Turns.
Import Orchestrator.
Context {Env : Type}.
Variable TrimSpace : string → string.

Ltac turn_steps :=
  unfold ProcessAudio, ProcessAudioStream, Transcribe, GenerateResponse,
    Synthesize, SynthesizeStream, bind, call, ret, getSession, logPrintf,
    addMessage, emit; simpl.

Lemma AddMessage_within (role content : string) (s : ConversationSession) :
  0 ≤ MaxMessages s → Go.len (Context s) ≤ MaxMessages s →
  ∃ s', Session.AddMessage role content s = Some s'
        ∧ MaxMessages s' = MaxMessages s
        ∧ Go.len (Context s') ≤ MaxMessages s'.
Proof.
  intros Hm Hlen.
  destruct (AddMessage_Context role content s) as (s' & Hadd & Hctx & Hm');
    [done | unfold Go.maxInt64; lia |].
  exists s'. repeat split; try done.
  rewrite Hctx, Hm'. unfold Go.len. rewrite lastn_length. lia.
Qed.

(** X26. With a window that is not negative a turn cannot panic and keeps
    the session within its bound: on a session with [MaxMessages >= 0] and
    at most [MaxMessages] messages, [ProcessAudio] and [ProcessAudioStream]
    return, whatever the providers do, and the session they leave has the
    same [MaxMessages] and at most that many messages, so that the next turn
    starts under the same conditions. *)
Theorem turn_keeps_window (o : Orchestrator Env) (audio : list Byte.byte)
        (onChunk : Sink Env) (w : World Env) :
  0 ≤ MaxMessages (w_session w) →
  Go.len (Context (w_session w)) ≤ MaxMessages (w_session w) →
  ∃ r w' r2 w2,
    ProcessAudio TrimSpace o audio w = Some (r, w')
    ∧ ProcessAudioStream TrimSpace o audio onChunk w = Some (r2, w2)
    ∧ w_session w2 = w_session w'
    ∧ MaxMessages (w_session w') = MaxMessages (w_session w)
    ∧ Go.len (Context (w_session w')) ≤ MaxMessages (w_session w').
Proof.
  intros Hm Hlen. turn_steps.
  destruct (stt_Transcribe _ _ _) as [[transcript [e|]] env1]; simpl.
  { by do 4 eexists. }
  destruct (String.eqb _ _); simpl.
  { by do 4 eexists. }
  destruct (AddMessage_within "user" transcript _ Hm Hlen) as (s1 & Hadd & Hm1 & Hlen1).
  rewrite Hadd. simpl.
  destruct (llm_Complete _ _ _) as [[response [e|]] env2]; simpl.
  { do 4 eexists. repeat split; simpl; done. }
  destruct (AddMessage_within "assistant" response s1) as (s2 & Hadd2 & Hm2 & Hlen2);
    [lia | done |].
  rewrite Hadd2. simpl.
  destruct (tts_Synthesize _ _ _ _) as [[audioBytes [e|]] env3];
    destruct (tts_StreamSynthesize _ _ _ _ _) as [[e'|] env3'];
    do 4 eexists; repeat split; simpl; congruence.
Qed.

End Turns.

(** The orchestrator of the tests on a new session. *)
Lemma turn_keeps_window_witness :
  let o := Mock.orchestrator 1 Mock.workingTTS in
  let w := Mock.world o in
  ∃ r w' r2 w2,
    Orchestrator.ProcessAudio Mock.TrimSpaceASCII o Mock.testAudio w = Some (r, w')
    ∧ Orchestrator.ProcessAudioStream Mock.TrimSpaceASCII o Mock.testAudio Mock.collect w
      = Some (r2, w2)
    ∧ Orchestrator.w_session w2 = Orchestrator.w_session w'
    ∧ MaxMessages (Orchestrator.w_session w') = 1
    ∧ Go.len (Context (Orchestrator.w_session w')) ≤ MaxMessages (Orchestrator.w_session w').
Proof.
  intros o w.
  apply (turn_keeps_window Mock.TrimSpaceASCII o Mock.testAudio Mock.collect w);
    vm_compute; discriminate.
Defined.

(** X25. [ProcessAudioStream] over the mock providers of the tests, with a
    sink that collects the chunks: when the STT and LLM mocks succeed, the
    call returns the transcript of the STT mock; if the TTS mock has no
    stream error the sink has received one chunk, the audio of the mock, and
    the error is nil; if it has one the sink has received nothing and the
    error is that one wrapped under "TTS stream failed: ". *)
Theorem mock_stream_delivers_one_chunk (TrimSpace : string → string)
        (stt : Mock.MockSTTProvider) (llm : Mock.MockLLMProvider)
        (tts : Mock.MockTTSProvider) (cfg : Config) (audio : list Byte.byte)
        (w : Orchestrator.World Mock.Chunks) :
  let o := Orchestrator.New (Mock.STT stt) (Mock.LLM llm) (Mock.TTS tts) cfg in
  0 ≤ MaxMessages (Orchestrator.w_session w) →
  Go.len (Context (Orchestrator.w_session w)) ≤ MaxMessages (Orchestrator.w_session w) →
  Mock.transcribeErr stt = None →
  TrimSpace (Mock.transcribeResult stt) ≠ "" →
  Mock.completeErr llm = None →
  ∃ w',
    Orchestrator.ProcessAudioStream TrimSpace o audio Mock.collect w
    = Some ((Mock.transcribeResult stt,
             Go.Errorf_w "TTS stream failed: " <$> Mock.streamErr tts), w')
    ∧ Orchestrator.w_env w'
      = match Mock.streamErr tts with
        | Some _ => Orchestrator.w_env w
        | None => Orchestrator.w_env w ++ [Mock.synthesizeResult tts]
        end.
Proof.
  intros o Hm Hlen Hstt Htrim Hllm. apply String.eqb_neq in Htrim.
  unfold Mock.Chunks in *.
  destruct (AddMessage_within "user" (Mock.transcribeResult stt) _ Hm Hlen)
    as (s1 & Hadd & Hm1 & Hlen1).
  destruct (AddMessage_within "assistant" (Mock.completeResult llm) s1)
    as (s2 & Hadd2 & _); [lia | done |].
  unfold Orchestrator.ProcessAudioStream, Orchestrator.Transcribe,
    Orchestrator.GenerateResponse, Orchestrator.SynthesizeStream, Orchestrator.bind,
    Orchestrator.call, Orchestrator.ret, Orchestrator.getSession, Orchestrator.logPrintf,
    Orchestrator.addMessage, Orchestrator.emit.
  subst o. cbn [Orchestrator.New Orchestrator.stt Orchestrator.llm Orchestrator.tts
                Mock.STT Mock.LLM Mock.TTS Orchestrator.stt_Transcribe
                Orchestrator.llm_Complete Orchestrator.tts_StreamSynthesize
                Orchestrator.w_env Orchestrator.w_session Orchestrator.w_trace].
  rewrite Hstt, Htrim. cbn [Orchestrator.w_session]. rewrite Hadd.
  cbn [mbind option_bind Orchestrator.w_session Orchestrator.w_env]. rewrite Hllm.
  cbn [Orchestrator.w_session]. rewrite Hadd2.
  cbn [mbind option_bind Orchestrator.w_session Orchestrator.w_env Orchestrator.w_trace].
  destruct (Mock.streamErr tts) as [e|]; simpl; by eexists.
Qed.

(** [TestProcessAudioStream]. *)
Lemma mock_stream_delivers_one_chunk_witness :
  let o := Mock.orchestrator 20 Mock.workingTTS in
  ∃ w',
    Orchestrator.ProcessAudioStream Mock.TrimSpaceASCII o Mock.testAudio Mock.collect
      (Mock.world o)
    = Some (("Hello, how are you?", None), w')
    ∧ Orchestrator.w_env w' = [[Byte.x01; Byte.x02; Byte.x03; Byte.x04]].
Proof.
  intros o.
  apply (mock_stream_delivers_one_chunk Mock.TrimSpaceASCII
           (Mock.mkMockSTT "Hello, how are you?" None)
           (Mock.mkMockLLM "I'm doing great, thanks for asking!" None)
           Mock.workingTTS (mkConfig 16000 1 2 20 VoiceF1 LanguageEn 30 60 30)
           Mock.testAudio (Mock.world o)).
  - vm_compute. discriminate.
  - vm_compute. discriminate.
  - reflexivity.
  - vm_compute. discriminate.
  - reflexivity.
Defined.
